(** * gurl: a URL parser ported from Go's net/url to TypeScript

    Shallow embedding of [src/index.ts] and of its near-duplicate
    [part_000], and the properties of the parsing pipeline.

    Conventions of the embedding.
    - A string is a [string] of 8-bit character codes; [charCodeAt] is
      [N_of_ascii].  An index is a [Z], as the JavaScript builtins return
      [-1] for "not found".
    - A function returning [Result<T>] returns [Result T]; the Go-style
      tuples [(value, err)] of the unported parts are read the same way.
    - A loop [while (i < s.length)] is a structural recursion on the suffix
      [s.slice(i)]; where the body needs [i] itself, [i] is carried along.
    - [unescape], [parseHost], [parseAuthority] and the tail of [parse] are
      still written in Go in the source ([switch s[i] {], [host[:zone]],
      [x, err := f()]); they are read with Go's meaning: a [case] ends at
      the next [case], [s[a:b]] is [s.slice(a, b)]. *)

From Stdlib Require Import ZArith NArith String Ascii List Bool Lia.
Import ListNotations.

Local Open Scope string_scope.
Local Open Scope Z_scope.

(** ** Results and errors *)

(** The error values the source builds: object literals
    [{ name, message }], Go's [InvalidHostError(s)], [fmt.Errorf(format, arg)],
    [errors.New(msg)] and the wrapper [&Error{op, url, err}] of [Parse]. *)
Inductive error : Type :=
| JsError (name message : string)
| InvalidHostError (s : string)
| Errorf (format arg : string)
| ErrorsNew (message : string)
| OpError (op url : string) (err : error).

Inductive Result (T : Type) : Type :=
| Ok (value : T)
| Err (e : error).

Arguments Ok {T} value.
Arguments Err {T} e.

Definition isError {T} (r : Result T) : bool :=
  match r with Ok _ => false | Err _ => true end.

Definition bind {T U} (r : Result T) (k : T -> Result U) : Result U :=
  match r with
  | Ok v => k v
  | Err e => Err e
  end.

Notation "x <- r ;; k" := (bind r (fun x => k))
  (at level 61, r at next level, right associativity).

(** ** JavaScript string builtins *)

Module Js.

Definition len (s : string) : Z := Z.of_nat (String.length s).

Fixpoint take (n : nat) (s : string) : string :=
  match n, s with
  | S n', String c t => String c (take n' t)
  | _, _ => ""
  end.

Fixpoint drop (n : nat) (s : string) : string :=
  match n, s with
  | S n', String _ t => drop n' t
  | _, _ => s
  end.

(** [s.slice(a, b)]: a negative index counts from the end, both ends are
    clamped to the string. *)
Definition clamp (l k : Z) : Z :=
  if k <? 0 then Z.max (l + k) 0 else Z.min k l.

Definition slice (s : string) (a b : Z) : string :=
  let from := clamp (len s) a in
  let to := clamp (len s) b in
  take (Z.to_nat (to - from)) (drop (Z.to_nat from) s).

(** [s.slice(a)] *)
Definition sliceFrom (s : string) (a : Z) : string := slice s a (len s).

(** [s.indexOf(sep)] *)
Fixpoint indexOfNat (s sep : string) : option nat :=
  if String.prefix sep s then Some 0%nat
  else match s with
       | "" => None
       | String _ t => option_map S (indexOfNat t sep)
       end.

Definition indexOf (s sep : string) : Z :=
  match indexOfNat s sep with
  | Some i => Z.of_nat i
  | None => -1
  end.

(** [s.lastIndexOf(sep)] *)
Fixpoint lastIndexOfNat (s sep : string) : option nat :=
  match s with
  | "" => if String.prefix sep "" then Some 0%nat else None
  | String _ t =>
      match lastIndexOfNat t sep with
      | Some i => Some (S i)
      | None => if String.prefix sep s then Some 0%nat else None
      end
  end.

Definition lastIndexOf (s sep : string) : Z :=
  match lastIndexOfNat s sep with
  | Some i => Z.of_nat i
  | None => -1
  end.

(** [s.endsWith(suffix)] *)
Definition endsWith (s suffix : string) : bool :=
  (len suffix <=? len s) && (slice s (len s - len suffix) (len s) =? suffix)%string.

(** [s.split(sep)]: the pieces between the non-overlapping occurrences of
    [sep], scanned from the left; an empty [sep] splits into characters. *)
Fixpoint splitAux (sep s : string) (skip : nat) (cur : string) : list string :=
  match s with
  | "" => [cur]
  | String c t =>
      match skip with
      | S k => splitAux sep t k cur
      | O =>
          if String.prefix sep s
          then cur :: splitAux sep t (String.length sep - 1) ""
          else splitAux sep t 0 (cur ++ String c "")
      end
  end.

Definition split (s sep : string) : list string :=
  match sep with
  | "" => List.map (fun c => String c "") (list_ascii_of_string s)
  | _ => splitAux sep s 0 ""
  end.

(** [s.toLowerCase()], on the ASCII letters. *)
Definition lowerChar (c : ascii) : ascii :=
  let v := N_of_ascii c in
  if ((65 <=? v) && (v <=? 90))%N then ascii_of_N (v + 32) else c.

Fixpoint toLowerCase (s : string) : string :=
  match s with
  | "" => ""
  | String c t => String (lowerChar c) (toLowerCase t)
  end.

End Js.

(** ** The [strings] namespace of the source (lines 21-49) *)

Module strings.

Record CutResult : Type := mkCut { before : string; after : string; found : bool }.

Definition cut (s sep : string) : CutResult :=
  let i := Js.indexOf s sep in
  if i >=? 0
  then {| before := Js.slice s 0 i;
          after := Js.sliceFrom s (i + Js.len sep);
          found := true |}
  else {| before := s; after := ""; found := false |}.

Definition count (s c : string) : Z :=
  Z.of_nat (List.length (Js.split s c)) - 1.

Definition hasPrefix (s prefix : string) : bool :=
  (Js.len s >=? Js.len prefix) && (Js.slice s 0 (Js.len prefix) =? prefix)%string.

(** Go's [strings.Contains], used by the unported [parseAuthority]. *)
Definition contains (s sub : string) : bool := Js.indexOf s sub >=? 0.

End strings.

(** ** Character codes *)

Definition charCode (c : ascii) : N := N_of_ascii c.

Definition isLetter (c : N) : bool :=
  ((97 <=? c) && (c <=? 122) || (65 <=? c) && (c <=? 90))%N.

Definition isSchemeTail (c : N) : bool :=
  ((48 <=? c) && (c <=? 57) || (c =? 43) || (c =? 45) || (c =? 46))%N.

(** [c] is the code of one of the characters of [set]. *)
Definition memChar (c : N) (set : string) : bool :=
  List.existsb (fun x => (charCode x =? c)%N) (list_ascii_of_string set).

(** ** [stringContainsCTLByte] (lines 52-62) *)

Fixpoint stringContainsCTLByte (s : string) : bool :=
  match s with
  | "" => false
  | String ch t =>
      let b := charCode ch in
      if ((b <? 32) || (b =? 127))%N then true else stringContainsCTLByte t
  end.

(** ** [getScheme] (lines 67-90) *)

(** [interface Scheme { Scheme: string; Path: string }] *)
Module Scheme.
Record t : Type := mk { Scheme : string; Path : string }.
End Scheme.

Definition MISSING_SCHEME : error := JsError "MISSING_SCHEME" "missing protocol scheme".

(** The loop at index [i], [rest] being [rawURL.slice(i)].  The outer test is
    [!(letter)]: its then-branch holds the digit test, and the
    [else if (rawURL[i] == ':')] and the final [else] hang on the letter
    side of it. *)
Fixpoint getSchemeLoop (rawURL : string) (i : Z) (rest : string) : Result Scheme.t :=
  match rest with
  | "" => Ok (Scheme.mk "" rawURL)
  | String ch rest' =>
      let c := charCode ch in
      if negb (isLetter c) then
        if isSchemeTail c then
          if i =? 0 then Ok (Scheme.mk "" rawURL)
          else getSchemeLoop rawURL (i + 1) rest'
        else getSchemeLoop rawURL (i + 1) rest'
      else if Ascii.eqb ch ":" then
        if i =? 0 then Err MISSING_SCHEME
        else Ok (Scheme.mk (Js.slice rawURL 0 i) (Js.sliceFrom rawURL (i + 1)))
      else
        Ok (Scheme.mk "" rawURL)
  end.

Definition getScheme (rawURL : string) : Result Scheme.t := getSchemeLoop rawURL 0 rawURL.

(** ** [validOptionalPort] (lines 94-109) *)

Fixpoint allDigits (s : string) : bool :=
  match s with
  | "" => true
  | String ch t =>
      if ((charCode ch <? 48) || (57 <? charCode ch))%N then false else allDigits t
  end.

Definition validOptionalPort (port : string) : bool :=
  match port with
  | "" => true
  | String ch t => if negb (Ascii.eqb ch ":") then false else allDigits t
  end.

(** ** [ishex] and [unhex] (lines 112-138), on a one-character string *)

Definition ishex (ch : ascii) : bool :=
  let v := charCode ch in
  if ((48 <=? v) && (v <=? 57))%N then true
  else if ((97 <=? v) && (v <=? 102))%N then true
  else if ((65 <=? v) && (v <=? 70))%N then true
  else false.

Definition unhex (ch : ascii) : N :=
  let v := charCode ch in
  (if (48 <=? v) && (v <=? 57) then v - 48
   else if (97 <=? v) && (v <=? 102) then v - 97 + 10
   else if (65 <=? v) && (v <=? 70) then v - 65 + 10
   else 0)%N.

(** ** What the source uses and does not define *)

(** Modelled from the spec: the [encode*] mode constants are not declared
    under src/; section 4.1 gives the closed set of contexts.  Only their
    being pairwise distinct matters. *)
Inductive encoding : Type :=
| encodePath
| encodePathSegment
| encodeHost
| encodeZone
| encodeUserPassword
| encodeQueryComponent
| encodeFragment.

Definition encoding_eqb (a b : encoding) : bool :=
  match a, b with
  | encodePath, encodePath
  | encodePathSegment, encodePathSegment
  | encodeHost, encodeHost
  | encodeZone, encodeZone
  | encodeUserPassword, encodeUserPassword
  | encodeQueryComponent, encodeQueryComponent
  | encodeFragment, encodeFragment => true
  | _, _ => false
  end.

(** The helper functions index.ts calls without defining them: the
    classifier [shouldEscape(byte, mode)], the default re-encoding
    [escape(s, mode)] and the predicate [validUserinfo(s)].  The
    development is parametric in them. *)
Class Helpers : Type := {
  shouldEscape : N -> encoding -> bool;
  escape : string -> encoding -> string;
  validUserinfo : string -> bool
}.

(** Go's [*Userinfo], built by [User(name)] and [UserPassword(name, pw)]. *)
Inductive Userinfo : Type :=
| User (username : string)
| UserPassword (username password : string).

(** [interface URL]: every field is optional; [User] is assigned by
    part_000 although the interface does not list it. *)
Module URL.

Record t : Type := mk {
  Scheme : option string;
  Opaque : option string;
  User : option Userinfo;
  Host : option string;
  Path : option string;
  RawPath : option string;
  OmitHost : option bool;
  ForceQuery : option bool;
  RawQuery : option string;
  Fragment : option string;
  RawFragment : option string
}.

(** [var url: URL = {}] *)
Definition empty : t := mk None None None None None None None None None None None.

Definition setScheme (u : t) (v : string) : t :=
  mk (Some v) (Opaque u) (User u) (Host u) (Path u) (RawPath u) (OmitHost u)
     (ForceQuery u) (RawQuery u) (Fragment u) (RawFragment u).
Definition setOpaque (u : t) (v : string) : t :=
  mk (Scheme u) (Some v) (User u) (Host u) (Path u) (RawPath u) (OmitHost u)
     (ForceQuery u) (RawQuery u) (Fragment u) (RawFragment u).
Definition setUser (u : t) (v : option Userinfo) : t :=
  mk (Scheme u) (Opaque u) v (Host u) (Path u) (RawPath u) (OmitHost u)
     (ForceQuery u) (RawQuery u) (Fragment u) (RawFragment u).
Definition setHost (u : t) (v : string) : t :=
  mk (Scheme u) (Opaque u) (User u) (Some v) (Path u) (RawPath u) (OmitHost u)
     (ForceQuery u) (RawQuery u) (Fragment u) (RawFragment u).
Definition setPath (u : t) (v : string) : t :=
  mk (Scheme u) (Opaque u) (User u) (Host u) (Some v) (RawPath u) (OmitHost u)
     (ForceQuery u) (RawQuery u) (Fragment u) (RawFragment u).
Definition setRawPath (u : t) (v : string) : t :=
  mk (Scheme u) (Opaque u) (User u) (Host u) (Path u) (Some v) (OmitHost u)
     (ForceQuery u) (RawQuery u) (Fragment u) (RawFragment u).
Definition setOmitHost (u : t) (v : bool) : t :=
  mk (Scheme u) (Opaque u) (User u) (Host u) (Path u) (RawPath u) (Some v)
     (ForceQuery u) (RawQuery u) (Fragment u) (RawFragment u).
Definition setForceQuery (u : t) (v : bool) : t :=
  mk (Scheme u) (Opaque u) (User u) (Host u) (Path u) (RawPath u) (OmitHost u)
     (Some v) (RawQuery u) (Fragment u) (RawFragment u).
Definition setRawQuery (u : t) (v : string) : t :=
  mk (Scheme u) (Opaque u) (User u) (Host u) (Path u) (RawPath u) (OmitHost u)
     (ForceQuery u) (Some v) (Fragment u) (RawFragment u).
Definition setFragment (u : t) (v : string) : t :=
  mk (Scheme u) (Opaque u) (User u) (Host u) (Path u) (RawPath u) (OmitHost u)
     (ForceQuery u) (RawQuery u) (Some v) (RawFragment u).
Definition setRawFragment (u : t) (v : string) : t :=
  mk (Scheme u) (Opaque u) (User u) (Host u) (Path u) (RawPath u) (OmitHost u)
     (ForceQuery u) (RawQuery u) (Fragment u) (Some v).

(** The text of a string field as the data model of the spec reads it: an
    unset field is an empty one. *)
Definition text (f : option string) : string :=
  match f with Some s => s | None => "" end.

(** A boolean field that was never set reads as false. *)
Definition flag (f : option bool) : bool :=
  match f with Some b => b | None => false end.

(** [url.F != v] on an optional string field: an unset field differs from
    every string. *)
Definition differs (f : option string) (v : string) : bool :=
  match f with Some s => negb (s =? v)%string | None => true end.

End URL.

(** ** index.ts: the decoding and parsing pipeline *)

Section IndexTs.

Context {helpers : Helpers}.

(** *** [unescape] (lines 143-214) *)

(** The escape error [{ name: "", message: s }] of lines 157, 166 and 178. *)
Definition EscapeError (s : string) : error := JsError "" s.

(** The decoded byte [unhex(s[i+1])<<4 | unhex(s[i+2])]. *)
Definition hexByte (c1 c2 : ascii) : N := N.lor (N.shiftl (unhex c1) 4) (unhex c2).

(** First loop (lines 148-191): counts the escapes in [n], records
    [hasPlus], and returns the first error.  [s] is the suffix
    [s.slice(i)]; [i+2 >= s.length] says that fewer than two characters
    follow the percent sign. *)
Fixpoint unescapeScan (mode : encoding) (s : string) (n : Z) (hasPlus : bool)
  : Result (Z * bool) :=
  match s with
  | "" => Ok (n, hasPlus)
  | String c t =>
      if Ascii.eqb c "%" then
        match t with
        | String c1 (String c2 t') =>
            let esc := String c (String c1 (String c2 "")) in
            if negb (ishex c1) || negb (ishex c2) then Err (EscapeError (Js.take 3 s))
            else if encoding_eqb mode encodeHost && (unhex c1 <? 8)%N
                    && negb (esc =? "%25")%string
            then Err (EscapeError esc)
            else if encoding_eqb mode encodeZone
                    && (negb (esc =? "%25")%string
                        && negb (hexByte c1 c2 =? charCode " ")%N
                        && shouldEscape (hexByte c1 c2) encodeHost)
            then Err (EscapeError esc)
            else unescapeScan mode t' (n + 1) hasPlus
        | _ => Err (EscapeError (Js.take 3 s))
        end
      else if Ascii.eqb c "+" then
        unescapeScan mode t n (encoding_eqb mode encodeQueryComponent)
      else if (encoding_eqb mode encodeHost || encoding_eqb mode encodeZone)
              && (charCode c <? 128)%N && shouldEscape (charCode c) mode
      then Err (InvalidHostError (String c ""))
      else unescapeScan mode t n hasPlus
  end.

(** Second loop (lines 197-212): builds the decoded text.  It runs only
    after the first loop has accepted [s], so every percent sign has its two
    digits; on a truncated escape (never reached) it stops. *)
Fixpoint unescapeBuild (mode : encoding) (s : string) : string :=
  match s with
  | "" => ""
  | String c t =>
      if Ascii.eqb c "%" then
        match t with
        | String c1 (String c2 t') =>
            String (ascii_of_N (hexByte c1 c2)) (unescapeBuild mode t')
        | _ => ""
        end
      else if Ascii.eqb c "+" then
        if encoding_eqb mode encodeQueryComponent
        then String " " (unescapeBuild mode t)
        else String "+" (unescapeBuild mode t)
      else String c (unescapeBuild mode t)
  end.

Definition unescape (s : string) (mode : encoding) : Result string :=
  match unescapeScan mode s 0 false with
  | Err e => Err e
  | Ok (n, hasPlus) =>
      if (n =? 0) && negb hasPlus then Ok s else Ok (unescapeBuild mode s)
  end.

(** *** [parseHost] (lines 218-266) *)

Definition MISSING_RBRACKET_IN_HOST : error :=
  JsError "MISSING_RBRACKET_IN_HOST" "missing ']' in host".

Definition INVALID_HOST_PORT (colonPort : string) : error :=
  JsError "INVALID_HOST_PORT" ("invalid port " ++ colonPort ++ " after host").

Definition parseHost (host : string) : Result string :=
  if strings.hasPrefix host "[" then
    let i := Js.lastIndexOf host "]" in
    if i <? 0 then Err MISSING_RBRACKET_IN_HOST
    else
      let colonPort := Js.sliceFrom host (i + 1) in
      if negb (validOptionalPort colonPort) then Err (INVALID_HOST_PORT colonPort)
      else
        let zone := Js.indexOf (Js.slice host 0 i) "%25" in
        if zone >=? 0 then
          host1 <- unescape (Js.slice host 0 zone) encodeHost ;;
          host2 <- unescape (Js.slice host zone i) encodeZone ;;
          host3 <- unescape (Js.sliceFrom host i) encodeHost ;;
          Ok (host1 ++ host2 ++ host3)
        else unescape host encodeHost
  else
    let i := Js.lastIndexOf host ":" in
    if negb (i =? -1) then
      let colonPort := Js.sliceFrom host i in
      if negb (validOptionalPort colonPort)
      then Err (Errorf "invalid port %q after host" colonPort)
      else unescape host encodeHost
    else unescape host encodeHost.

(** *** [parseAuthority] (lines 269-302) *)

Definition parseAuthority (authority : string) : Result (option Userinfo * string) :=
  let i := Js.lastIndexOf authority "@" in
  host <- (if i <? 0 then parseHost authority
           else parseHost (Js.sliceFrom authority (i + 1))) ;;
  if i <? 0 then Ok (None, host)
  else
    let userinfo := Js.slice authority 0 i in
    if negb (validUserinfo userinfo) then Err (ErrorsNew "net/url: invalid userinfo")
    else if negb (strings.contains userinfo ":") then
      userinfo' <- unescape userinfo encodeUserPassword ;;
      Ok (Some (User userinfo'), host)
    else
      let c := strings.cut userinfo ":" in
      username <- unescape (strings.before c) encodeUserPassword ;;
      password <- unescape (strings.after c) encodeUserPassword ;;
      Ok (Some (UserPassword username password), host).

(** *** [url.setPath] and [url.setFragment] *)

(** Modelled from the spec: [setPath] is called by [parse] and is not under
    src/.  Section 4.7 step 9: the raw path is percent-decoded in Path
    context into [Path], decode errors propagate, and the raw text is kept
    in [RawPath] only if the default re-encoding of the decoded path
    differs from it. *)
Definition setPath (url : URL.t) (p : string) : Result URL.t :=
  path <- unescape p encodePath ;;
  let url := URL.setPath url path in
  if (escape path encodePath =? p)%string then Ok url
  else Ok (URL.setRawPath url p).

(** Modelled from the spec: [setFragment] is called by [Parse] and is not
    under src/.  Section 4.7, last paragraph: the fragment is
    percent-decoded in Fragment context, with the same raw hint rule. *)
Definition setFragment (url : URL.t) (f : string) : Result URL.t :=
  frag <- unescape f encodeFragment ;;
  let url := URL.setFragment url frag in
  if (escape frag encodeFragment =? f)%string then Ok url
  else Ok (URL.setRawFragment url f).

(** *** [parse] (lines 308-394) *)

Definition INVALID_CTRL_CHARACTER : error :=
  JsError "INVALID_CTRL_CHARACTER" "invalid control character in URL".
Definition EMPTY_URL : error := JsError "EMPTY_URL" "empty url".
Definition INVALID_REQUEST_URI : error :=
  JsError "INVALID_REQUEST_URI" "invalid URI for request".
Definition PATH_UNEXPECTED_COLON : error :=
  JsError "PATH_UNEXPECTED_COLON" "first path segment in URL cannot contain colon".

(** [rest.length > 0 && rest[0] == "/"] *)
Definition startsWithSlash (rest : string) : bool :=
  (Js.len rest >? 0) && (Js.slice rest 0 1 =? "/")%string.

(** Lines 366-394: the authority, [OmitHost] and the path.  The value of
    [parseAuthority] is tested with [isError] and then dropped: the
    assignment to [url.User] and [url.Host] is commented out (line 375). *)
Definition parseHier (url : URL.t) (rest : string) (viaRequest : bool) : Result URL.t :=
  if (URL.differs (URL.Scheme url) ""
      || negb viaRequest && negb (strings.hasPrefix rest "///"))
     && strings.hasPrefix rest "//"
  then
    let authority := Js.sliceFrom rest 2 in
    let i := Js.indexOf authority "/" in
    let tup := if i >=? 0
               then (Js.slice authority 0 i, Js.sliceFrom authority i)
               else (authority, "") in
    match parseAuthority (fst tup) with
    | Err e => Err e
    | Ok _ => setPath url (snd tup)
    end
  else if URL.differs (URL.Scheme url) "" && strings.hasPrefix rest "/"
  then setPath (URL.setOmitHost url true) rest
  else setPath url rest.

(** Lines 344-394: what [parse] does once the query is split off. *)
Definition parseAfterQuery (url : URL.t) (rest : string) (viaRequest : bool)
  : Result URL.t :=
  if negb (startsWithSlash rest) then
    if URL.differs (URL.Scheme url) "" then Ok (URL.setOpaque url rest)
    else if viaRequest then Err INVALID_REQUEST_URI
    else
      let cutRes := strings.cut rest "/" in
      if negb (Js.indexOf (strings.before cutRes) ":" =? -1)
      then Err PATH_UNEXPECTED_COLON
      else parseHier url rest viaRequest
  else parseHier url rest viaRequest.

(** Lines 335-342: the query split, giving the builder and the new [rest]. *)
Definition splitQuery (url : URL.t) (rest : string) : URL.t * string :=
  if Js.endsWith rest "?" && (strings.count rest "?" =? 1)
  then (URL.setForceQuery url true, Js.slice rest 0 (Js.len rest - 1))
  else
    let cutRes := strings.cut rest "?" in
    (URL.setRawQuery url (strings.after cutRes), strings.before cutRes).

Definition parse (rawURL : string) (viaRequest : bool) : Result URL.t :=
  if stringContainsCTLByte rawURL then Err INVALID_CTRL_CHARACTER
  else if (rawURL =? "")%string && viaRequest then Err EMPTY_URL
  else
    let url := URL.empty in
    if (rawURL =? "*")%string then Ok (URL.setPath url "*")
    else
      match getScheme rawURL with
      | Err e => Err e
      | Ok decodedScheme =>
          let url := URL.setScheme url (Js.toLowerCase (Scheme.Scheme decodedScheme)) in
          let rest := Scheme.Path decodedScheme in
          let q := splitQuery url rest in
          parseAfterQuery (fst q) (snd q) viaRequest
      end.

(** *** [Parse] (lines 403-418)

    [u] and [frag] are the two halves of [strings.Cut(rawURL, "#")]. *)
Definition Parse (rawURL : string) : Result URL.t :=
  let cutRes := strings.cut rawURL "#" in
  match parse (strings.before cutRes) false with
  | Err e => Err (OpError "parse" (strings.before cutRes) e)
  | Ok url =>
      if (strings.after cutRes =? "")%string then Ok url
      else
        match setFragment url (strings.after cutRes) with
        | Err e => Err (OpError "parse" rawURL e)
        | Ok url' => Ok url'
        end
  end.

End IndexTs.

(** ** part_000: the near-duplicate file

    It holds its own copies of [stringContainsCTLByte] and [getScheme] and
    a [parse] that stores what [parseAuthority] returns.  [parseAuthority],
    [setPath] and [setFragment] are called and not defined in that file:
    they are parameters here. *)

Module Part000.

Fixpoint stringContainsCTLByte (s : string) : bool :=
  match s with
  | "" => false
  | String ch t =>
      let b := charCode ch in
      if ((b <? 32) || (b =? 127))%N then true else stringContainsCTLByte t
  end.

Fixpoint getSchemeLoop (rawURL : string) (i : Z) (rest : string) : Result Scheme.t :=
  match rest with
  | "" => Ok (Scheme.mk "" rawURL)
  | String ch rest' =>
      let c := charCode ch in
      if negb (isLetter c) then
        if isSchemeTail c then
          if i =? 0 then Ok (Scheme.mk "" rawURL)
          else getSchemeLoop rawURL (i + 1) rest'
        else getSchemeLoop rawURL (i + 1) rest'
      else if Ascii.eqb ch ":" then
        if i =? 0 then Err MISSING_SCHEME
        else Ok (Scheme.mk (Js.slice rawURL 0 i) (Js.sliceFrom rawURL (i + 1)))
      else
        Ok (Scheme.mk "" rawURL)
  end.

Definition getScheme (rawURL : string) : Result Scheme.t := getSchemeLoop rawURL 0 rawURL.

Section Parse.

Variable parseAuthority : string -> Result (option Userinfo * string).
Variable setPath : URL.t -> string -> Result URL.t.
Variable setFragment : URL.t -> string -> Result URL.t.

(** Lines 155-181: [url.User, url.Host, err = parseAuthority(authority)]. *)
Definition parseHier (url : URL.t) (rest : string) (viaRequest : bool) : Result URL.t :=
  if (URL.differs (URL.Scheme url) ""
      || negb viaRequest && negb (strings.hasPrefix rest "///"))
     && strings.hasPrefix rest "//"
  then
    let authority := Js.sliceFrom rest 2 in
    let i := Js.indexOf authority "/" in
    let tup := if i >=? 0
               then (Js.slice authority 0 i, Js.sliceFrom authority i)
               else (authority, "") in
    match parseAuthority (fst tup) with
    | Err e => Err e
    | Ok (user, host) => setPath (URL.setHost (URL.setUser url user) host) (snd tup)
    end
  else if URL.differs (URL.Scheme url) "" && strings.hasPrefix rest "/"
  then setPath (URL.setOmitHost url true) rest
  else setPath url rest.

(** Lines 133-181 *)
Definition parseAfterQuery (url : URL.t) (rest : string) (viaRequest : bool)
  : Result URL.t :=
  if negb (startsWithSlash rest) then
    if URL.differs (URL.Scheme url) "" then Ok (URL.setOpaque url rest)
    else if viaRequest then Err INVALID_REQUEST_URI
    else
      let cutRes := strings.cut rest "/" in
      if negb (Js.indexOf (strings.before cutRes) ":" =? -1)
      then Err PATH_UNEXPECTED_COLON
      else parseHier url rest viaRequest
  else parseHier url rest viaRequest.

(** Lines 97-182 *)
Definition parse (rawURL : string) (viaRequest : bool) : Result URL.t :=
  if stringContainsCTLByte rawURL then Err INVALID_CTRL_CHARACTER
  else if (rawURL =? "")%string && viaRequest then Err EMPTY_URL
  else
    let url := URL.empty in
    if (rawURL =? "*")%string then Ok (URL.setPath url "*")
    else
      match getScheme rawURL with
      | Err e => Err e
      | Ok decodedScheme =>
          let url := URL.setScheme url (Js.toLowerCase (Scheme.Scheme decodedScheme)) in
          let rest := Scheme.Path decodedScheme in
          let q := splitQuery url rest in
          parseAfterQuery (fst q) (snd q) viaRequest
      end.

(** Lines 191-206 *)
Definition Parse (rawURL : string) : Result URL.t :=
  let cutRes := strings.cut rawURL "#" in
  match parse (strings.before cutRes) false with
  | Err e => Err (OpError "parse" (strings.before cutRes) e)
  | Ok url =>
      if (strings.after cutRes =? "")%string then Ok url
      else
        match setFragment url (strings.after cutRes) with
        | Err e => Err (OpError "parse" rawURL e)
        | Ok url' => Ok url'
        end
  end.

End Parse.

End Part000.

(** ** An instance of the missing helpers *)

Module Rfc3986.

Definition isAlnum (c : N) : bool :=
  (isLetter c || (48 <=? c) && (c <=? 57))%N.

(** Modelled from the spec: [shouldEscape] is not under src/.  Section 4.1:
    unreserved characters never need escaping; in Host and Zone context the
    ASCII sub-delimiters, the colon and the brackets stand unescaped; the
    other contexts each let a few reserved characters through; every other
    byte must be escaped. *)
Definition shouldEscape (c : N) (mode : encoding) : bool :=
  if isAlnum c then false
  else if (encoding_eqb mode encodeHost || encoding_eqb mode encodeZone)
          && memChar c "!$&'()*+,;=:[]<>"
  then false
  else if memChar c "-_.~" then false
  else if memChar c "$&+,/:;=?@" then
    match mode with
    | encodePath => (c =? charCode "?")%N
    | encodePathSegment => memChar c "/;,?"
    | encodeUserPassword => memChar c "@/?:"
    | encodeQueryComponent => true
    | encodeFragment => false
    | _ => true
    end
  else if encoding_eqb mode encodeFragment && memChar c "!()*" then false
  else true.

Definition hexDigit (v : N) : ascii :=
  if (v <? 10)%N then ascii_of_N (48 + v) else ascii_of_N (55 + v).

(** Modelled from the spec: [escape] is not under src/.  Section 9: the
    default re-encoding writes each byte that [shouldEscape] flags as a
    percent sign and two upper-case hex digits, a space in QueryComponent
    context as a plus sign. *)
Fixpoint escape (s : string) (mode : encoding) : string :=
  match s with
  | "" => ""
  | String ch t =>
      let c := charCode ch in
      if shouldEscape c mode then
        if (c =? 32)%N && encoding_eqb mode encodeQueryComponent
        then String "+" (escape t mode)
        else String "%" (String (hexDigit (N.shiftr c 4))
                           (String (hexDigit (N.land c 15)) (escape t mode)))
      else String ch (escape t mode)
  end.

(** Modelled from the spec: [validUserinfo] is not under src/.  Section 4.6
    asks for a check of the character class: the unreserved characters, the
    sub-delimiters, the percent sign, the colon and the at sign. *)
Fixpoint validUserinfo (s : string) : bool :=
  match s with
  | "" => true
  | String ch t =>
      let c := charCode ch in
      if isAlnum c || memChar c "-._:~!$&'()*+,;=%@" then validUserinfo t else false
  end.

#[export] Instance helpers : Helpers :=
  Build_Helpers shouldEscape escape validUserinfo.

End Rfc3986.

(** The two [parse] functions on the same helpers: part_000 with the
    [parseAuthority], [setPath] and [setFragment] of index.ts. *)
Definition parse000 {helpers : Helpers} : string -> bool -> Result URL.t :=
  Part000.parse parseAuthority setPath.

(** ** Vocabulary of the statements *)

(** [b < 0x20 || b == 0x7f], the test of [stringContainsCTLByte]. *)
Definition isControl (c : ascii) : bool :=
  ((charCode c <? 32) || (charCode c =? 127))%N.

(** The number of characters [d] in [s]. *)
Fixpoint occurrences (d : ascii) (s : string) : nat :=
  match s with
  | "" => 0%nat
  | String c t => ((if Ascii.eqb d c then 1 else 0) + occurrences d t)%nat
  end.

(** What the steps after the query split leave untouched. *)
Definition sameQueryFields (u v : URL.t) : Prop :=
  URL.ForceQuery u = URL.ForceQuery v /\ URL.RawQuery u = URL.RawQuery v /\
  URL.Scheme u = URL.Scheme v.


(** [c] is the code of a decimal digit, the test of [validOptionalPort]
    negated. *)
Definition isDigitChar (c : ascii) : bool :=
  ((48 <=? charCode c) && (charCode c <=? 57))%N.

(** [s] with every plus sign turned into a space. *)
Fixpoint plusToSpace (s : string) : string :=
  match s with
  | "" => ""
  | String c t => String (if Ascii.eqb c "+" then " "%char else c) (plusToSpace t)
  end.

(** [u] without the two fields that only part_000 assigns. *)
Definition clearAuthority (u : URL.t) : URL.t :=
  URL.mk (URL.Scheme u) (URL.Opaque u) None None (URL.Path u) (URL.RawPath u)
    (URL.OmitHost u) (URL.ForceQuery u) (URL.RawQuery u) (URL.Fragment u)
    (URL.RawFragment u).

(** The same on results. *)
Definition mapResult {T U} (f : T -> U) (r : Result T) : Result U :=
  match r with
  | Ok v => Ok (f v)
  | Err e => Err e
  end.

(** What follows a percent sign is no escape: fewer than two characters,
    or two that are not both hex digits. *)
Definition malformedAfterPercent (tail : string) : Prop :=
  match tail with
  | String c1 (String c2 _) => ishex c1 && ishex c2 = false
  | _ => True
  end.

(** * Properties *)

(** ** Facts on the string builtins *)

Lemma length_app (a b : string) :
  String.length (a ++ b) = (String.length a + String.length b)%nat.
Proof. induction a as [|c a IH]; simpl; [reflexivity | now rewrite IH]. Qed.

Lemma len_app (a b : string) : Js.len (a ++ b) = Js.len a + Js.len b.
Proof. unfold Js.len. rewrite length_app. lia. Qed.

Lemma len_nonneg (a : string) : 0 <= Js.len a.
Proof. unfold Js.len. lia. Qed.

Lemma app_assoc_str (a b c : string) : (a ++ b) ++ c = a ++ b ++ c.
Proof. induction a as [|x a IH]; simpl; [reflexivity | now rewrite IH]. Qed.

Lemma app_empty_r (a : string) : a ++ "" = a.
Proof. induction a as [|x a IH]; simpl; [reflexivity | now rewrite IH]. Qed.

Lemma take_app (a b : string) : Js.take (String.length a) (a ++ b) = a.
Proof. induction a as [|c a IH]; simpl; [now destruct b | now rewrite IH]. Qed.

Lemma take_all (a : string) : Js.take (String.length a) a = a.
Proof. induction a as [|c a IH]; simpl; [reflexivity | now rewrite IH]. Qed.

Lemma drop_app (a b : string) : Js.drop (String.length a) (a ++ b) = b.
Proof. induction a as [|c a IH]; simpl; [now destruct b | exact IH]. Qed.

Lemma drop_0 (a : string) : Js.drop 0 a = a.
Proof. now destruct a. Qed.

Lemma slice_prefix (a b : string) : Js.slice (a ++ b) 0 (Js.len a) = a.
Proof.
  unfold Js.slice, Js.clamp. rewrite len_app.
  pose proof (len_nonneg a). pose proof (len_nonneg b).
  destruct (0 <? 0) eqn:E0; [discriminate|].
  destruct (Js.len a <? 0) eqn:E1; [apply Z.ltb_lt in E1; lia|].
  replace (Z.min 0 (Js.len a + Js.len b)) with 0 by lia.
  replace (Z.min (Js.len a) (Js.len a + Js.len b) - 0) with (Js.len a) by lia.
  simpl. rewrite ?drop_0. unfold Js.len. rewrite Nat2Z.id. apply take_app.
Qed.

Lemma slice_middle (a b c : string) :
  Js.slice (a ++ b ++ c) (Js.len a) (Js.len a + Js.len b) = b.
Proof.
  unfold Js.slice, Js.clamp. rewrite !len_app.
  pose proof (len_nonneg a). pose proof (len_nonneg b). pose proof (len_nonneg c).
  destruct (Js.len a <? 0) eqn:E1; [apply Z.ltb_lt in E1; lia|].
  destruct (Js.len a + Js.len b <? 0) eqn:E2; [apply Z.ltb_lt in E2; lia|].
  replace (Z.min (Js.len a) (Js.len a + (Js.len b + Js.len c))) with (Js.len a) by lia.
  replace (Z.min (Js.len a + Js.len b) (Js.len a + (Js.len b + Js.len c)) - Js.len a)
    with (Js.len b) by lia.
  unfold Js.len. rewrite !Nat2Z.id, drop_app. apply take_app.
Qed.

Lemma sliceFrom_app (a b : string) : Js.sliceFrom (a ++ b) (Js.len a) = b.
Proof.
  unfold Js.sliceFrom.
  replace (a ++ b) with (a ++ b ++ "") by now rewrite app_empty_r.
  rewrite !len_app. replace (Js.len "") with 0 by reflexivity.
  rewrite Z.add_0_r. apply slice_middle.
Qed.

Lemma sliceFrom_skip (a sep b : string) :
  Js.sliceFrom (a ++ sep ++ b) (Js.len a + Js.len sep) = b.
Proof. rewrite <- app_assoc_str, <- len_app. apply sliceFrom_app. Qed.

Lemma prefix_empty (s : string) : String.prefix "" s = true.
Proof. now destruct s. Qed.

Lemma prefix_single (d x : ascii) (t : string) :
  String.prefix (String d "") (String x t) = Ascii.eqb d x.
Proof.
  simpl. destruct (ascii_dec d x) as [->|n].
  - now rewrite prefix_empty, Ascii.eqb_refl.
  - symmetry. now apply Ascii.eqb_neq.
Qed.

Lemma contains_false (s sep : string) :
  strings.contains s sep = false <-> Js.indexOfNat s sep = None.
Proof.
  unfold strings.contains, Js.indexOf.
  destruct (Js.indexOfNat s sep) as [i|]; split; intro H; try reflexivity; try discriminate.
  rewrite Z.geb_leb in H; apply Z.leb_gt in H. lia.
Qed.

Lemma indexOfNat_none_last (s sep : string) :
  Js.indexOfNat s sep = None <-> Js.lastIndexOfNat s sep = None.
Proof.
  induction s as [|c s IH]; cbn [Js.indexOfNat Js.lastIndexOfNat].
  - tauto.
  - destruct (String.prefix sep (String c s)) eqn:P.
    + split; [discriminate|]. destruct (Js.lastIndexOfNat s sep); discriminate.
    + destruct (Js.indexOfNat s sep), (Js.lastIndexOfNat s sep); simpl;
        split; intro H; try reflexivity; try discriminate;
        destruct IH as [I1 I2]; try (specialize (I1 eq_refl)); try (specialize (I2 eq_refl));
        discriminate.
Qed.

(** The first occurrence of a one-character separator. *)
Lemma indexOfNat_first (d : ascii) (a b : string) :
  Js.indexOfNat a (String d "") = None ->
  Js.indexOfNat (a ++ String d b) (String d "") = Some (String.length a).
Proof.
  induction a as [|c a IH]; intro H.
  - simpl. destruct (ascii_dec d d) as [_|n]; [|now elim n]. now rewrite prefix_empty.
  - change ((String c a) ++ String d b) with (String c (a ++ String d b)).
    cbn [Js.indexOfNat] in *. rewrite prefix_single in *.
    destruct (Ascii.eqb d c); [discriminate|].
    destruct (Js.indexOfNat a (String d "")); [discriminate|].
    now rewrite IH.
Qed.

(** The last occurrence of a one-character separator. *)
Lemma lastIndexOfNat_last (d : ascii) (a b : string) :
  Js.lastIndexOfNat b (String d "") = None ->
  Js.lastIndexOfNat (a ++ String d b) (String d "") = Some (String.length a).
Proof.
  intro H. induction a as [|c a IH].
  - simpl. rewrite H. destruct (ascii_dec d d) as [_|n]; [|now elim n].
    now rewrite prefix_empty.
  - change ((String c a) ++ String d b) with (String c (a ++ String d b)).
    cbn [Js.lastIndexOfNat]. now rewrite IH.
Qed.

Lemma lastIndexOf_last (d : ascii) (a b : string) :
  strings.contains b (String d "") = false ->
  Js.lastIndexOf (a ++ String d b) (String d "") = Js.len a.
Proof.
  intro H. apply contains_false, indexOfNat_none_last in H.
  unfold Js.lastIndexOf. now rewrite lastIndexOfNat_last.
Qed.

Lemma lastIndexOf_none (s sep : string) :
  strings.contains s sep = false -> Js.lastIndexOf s sep = -1.
Proof.
  intro H. apply contains_false, indexOfNat_none_last in H.
  unfold Js.lastIndexOf. now rewrite H.
Qed.

Lemma indexOf_first (d : ascii) (a b : string) :
  strings.contains a (String d "") = false ->
  Js.indexOf (a ++ String d b) (String d "") = Js.len a.
Proof.
  intro H. apply contains_false in H.
  unfold Js.indexOf. now rewrite indexOfNat_first.
Qed.

Lemma cut_first (d : ascii) (a b : string) :
  strings.contains a (String d "") = false ->
  strings.cut (a ++ String d b) (String d "") = strings.mkCut a b true.
Proof.
  intro H. unfold strings.cut. rewrite (indexOf_first d a b H).
  pose proof (len_nonneg a) as L.
  destruct (Js.len a >=? 0) eqn:E; [|rewrite Z.geb_leb in E; apply Z.leb_gt in E; lia].
  f_equal.
  - apply slice_prefix.
  - change (String d b) with (String d "" ++ b). apply sliceFrom_skip.
Qed.

Lemma contains_first (d : ascii) (a b : string) :
  strings.contains (a ++ String d b) (String d "") = true.
Proof.
  unfold strings.contains, Js.indexOf.
  induction a as [|c a IH].
  - simpl. destruct (ascii_dec d d) as [_|n]; [|now elim n]. now rewrite prefix_empty.
  - change ((String c a) ++ String d b) with (String c (a ++ String d b)).
    cbn [Js.indexOfNat]. destruct (String.prefix _ _); [reflexivity|].
    destruct (Js.indexOfNat (a ++ String d b) (String d "")) as [i|]; simpl.
    + rewrite Z.geb_leb; apply Z.leb_le. lia.
    + discriminate.
Qed.

(** ** [getScheme] *)

Lemma letter_not_colon (ch : ascii) :
  isLetter (charCode ch) && Ascii.eqb ch ":" = false.
Proof.
  destruct (Ascii.eqb ch ":") eqn:E.
  - apply Ascii.eqb_eq in E. now subst.
  - apply andb_false_r.
Qed.

Lemma getSchemeLoop_no_scheme (rawURL rest : string) (i : Z) :
  getSchemeLoop rawURL i rest = Ok (Scheme.mk "" rawURL).
Proof.
  revert i. induction rest as [|ch rest IH]; intro i; cbn [getSchemeLoop].
  - reflexivity.
  - pose proof (letter_not_colon ch) as L.
    destruct (isLetter (charCode ch)); cbn [negb].
    + simpl in L. now rewrite L.
    + destruct (isSchemeTail (charCode ch)); [destruct (i =? 0)|]; auto.
Qed.

Lemma getScheme_no_scheme (s : string) : getScheme s = Ok (Scheme.mk "" s).
Proof. apply getSchemeLoop_no_scheme. Qed.

Lemma getSchemeLoop_part000 (rawURL rest : string) (i : Z) :
  Part000.getSchemeLoop rawURL i rest = getSchemeLoop rawURL i rest.
Proof.
  revert i. induction rest as [|ch rest IH]; intro i; cbn; [reflexivity|].
  now rewrite !IH.
Qed.

Lemma getScheme_part000 (s : string) : Part000.getScheme s = getScheme s.
Proof. apply getSchemeLoop_part000. Qed.

Lemma stringContainsCTLByte_part000 (s : string) :
  Part000.stringContainsCTLByte s = stringContainsCTLByte s.
Proof. induction s as [|ch s IH]; cbn; [reflexivity | now rewrite IH]. Qed.

(** C9: for every input [s], [getScheme s] is the empty scheme with [s]
    itself as the remainder, in index.ts and in part_000 alike.  The loop
    gives this answer from every state [(i, rest)]: the colon test sits on
    the branch taken for a letter, and no letter is a colon, so neither the
    branch that returns a scheme nor the MISSING_SCHEME branch is ever
    taken. *)
Theorem getScheme_always_empty_scheme :
  (forall ch, isLetter (charCode ch) && Ascii.eqb ch ":" = false) /\
  (forall rawURL i rest, getSchemeLoop rawURL i rest = Ok (Scheme.mk "" rawURL)) /\
  (forall s, getScheme s = Ok (Scheme.mk "" s)) /\
  (forall s, Part000.getScheme s = Ok (Scheme.mk "" s)).
Proof.
  repeat split.
  - apply letter_not_colon.
  - intros. apply getSchemeLoop_no_scheme.
  - apply getScheme_no_scheme.
  - intro s. rewrite getScheme_part000. apply getScheme_no_scheme.
Qed.

(** C2, at the failing inputs: on "http://example.com" [getScheme] returns
    no scheme and the whole input as remainder, where the grammar
    [ALPHA (ALPHA / DIGIT / "+" / "-" / ".")*] asks for the scheme "http"
    and the remainder "//example.com"; on ":x", a colon at position 0, it
    returns the same shape and not the MISSING_SCHEME error. *)
Theorem getScheme_misses_scheme_and_missing_scheme :
  getScheme "http://example.com" = Ok (Scheme.mk "" "http://example.com") /\
  getScheme ":x" = Ok (Scheme.mk "" ":x") /\
  getScheme ":x" <> Err MISSING_SCHEME.
Proof. repeat split; discriminate. Qed.

Section Pipeline.

Context {helpers : Helpers}.

(** C1, at the failing input: whatever the missing helpers are,
    [Parse "http://example.com/a?b"] does not succeed.  [getScheme] finds
    no scheme, the rootless remainder "http://example.com/a" has a colon in
    its first segment, and [parse] returns PATH_UNEXPECTED_COLON, which
    [Parse] wraps. *)
Theorem Parse_http_example_rejected :
  Parse "http://example.com/a?b"
  = Err (OpError "parse" "http://example.com/a?b" PATH_UNEXPECTED_COLON).
Proof. reflexivity. Qed.

(** *** [parseAuthority] *)

Lemma parseAuthority_at (userinfo hostport : string) :
  strings.contains hostport "@" = false ->
  parseAuthority (userinfo ++ "@" ++ hostport)
  = (host <- parseHost hostport ;;
     if negb (validUserinfo userinfo) then Err (ErrorsNew "net/url: invalid userinfo")
     else if negb (strings.contains userinfo ":") then
       userinfo' <- unescape userinfo encodeUserPassword ;;
       Ok (Some (User userinfo'), host)
     else
       let c := strings.cut userinfo ":" in
       username <- unescape (strings.before c) encodeUserPassword ;;
       password <- unescape (strings.after c) encodeUserPassword ;;
       Ok (Some (UserPassword username password), host)).
Proof.
  intro H. unfold parseAuthority.
  change ("@" ++ hostport) with (String "@" hostport).
  rewrite (lastIndexOf_last "@" userinfo hostport H).
  pose proof (len_nonneg userinfo) as L.
  destruct (Js.len userinfo <? 0) eqn:E; [apply Z.ltb_lt in E; lia|].
  change (String "@" hostport) with ("@" ++ hostport).
  replace (Js.len userinfo + 1) with (Js.len userinfo + Js.len "@") by reflexivity.
  rewrite sliceFrom_skip, slice_prefix. reflexivity.
Qed.

(** C4: [parseAuthority] on every authority string.  Without an at sign
    the whole string goes to [parseHost] and no userinfo is produced.
    Otherwise, writing the string as [userinfo ++ "@" ++ hostport] with no
    at sign in [hostport] (the split at the LAST at sign), [hostport] is
    what [parseHost] receives, its failure being the result, and
    [userinfo] is the userinfo: when the host is parsed and
    [validUserinfo] accepts the userinfo, a userinfo
    [username ++ ":" ++ password] with no colon in [username] (the split
    at the FIRST colon) has its two halves decoded one after the other in
    UserPassword context, the first failure being the result, and a
    userinfo without colon is decoded whole in UserPassword context into a
    user name without password, its failure being the result; a userinfo
    that [validUserinfo] refuses gives the "invalid userinfo" error. *)
Theorem parseAuthority_last_at_first_colon :
  (forall authority,
      strings.contains authority "@" = false ->
      parseAuthority authority = (host <- parseHost authority ;; Ok (None, host))) /\
  (forall userinfo hostport e,
      strings.contains hostport "@" = false ->
      parseHost hostport = Err e ->
      parseAuthority (userinfo ++ "@" ++ hostport) = Err e) /\
  (forall username password hostport host,
      strings.contains hostport "@" = false ->
      strings.contains username ":" = false ->
      parseHost hostport = Ok host ->
      validUserinfo (username ++ ":" ++ password) = true ->
      parseAuthority ((username ++ ":" ++ password) ++ "@" ++ hostport)
      = (u <- unescape username encodeUserPassword ;;
         p <- unescape password encodeUserPassword ;;
         Ok (Some (UserPassword u p), host))) /\
  (forall userinfo hostport host,
      strings.contains hostport "@" = false ->
      strings.contains userinfo ":" = false ->
      parseHost hostport = Ok host ->
      validUserinfo userinfo = true ->
      parseAuthority (userinfo ++ "@" ++ hostport)
      = (u <- unescape userinfo encodeUserPassword ;;
         Ok (Some (User u), host))) /\
  (forall userinfo hostport host,
      strings.contains hostport "@" = false ->
      parseHost hostport = Ok host ->
      validUserinfo userinfo = false ->
      parseAuthority (userinfo ++ "@" ++ hostport)
      = Err (ErrorsNew "net/url: invalid userinfo")).
Proof.
  split; [|split; [|split; [|split]]].
  - intros authority H. unfold parseAuthority.
    rewrite (lastIndexOf_none _ _ H). cbn.
    destruct (parseHost authority); reflexivity.
  - intros userinfo hostport e H E.
    rewrite (parseAuthority_at _ _ H), E. reflexivity.
  - intros username password hostport host H Hc E V.
    rewrite (parseAuthority_at _ _ H), E. cbn [bind]. rewrite V. cbn [negb].
    change (":" ++ password) with (String ":" password).
    rewrite contains_first. cbn [negb].
    rewrite (cut_first _ _ _ Hc). reflexivity.
  - intros userinfo hostport host H Hc E V.
    rewrite (parseAuthority_at _ _ H), E. cbn [bind]. now rewrite V, Hc.
  - intros userinfo hostport host H E V.
    rewrite (parseAuthority_at _ _ H), E. cbn [bind]. now rewrite V.
Qed.

End Pipeline.

(** C4 at the authorities "example.com:80", "user@[::1",
    "user:pa%40ss:x@example.com:80", "a@us%65r@example.com" and
    "us er@example.com". *)
Lemma parseAuthority_last_at_first_colon_witness :
  parseAuthority (helpers := Rfc3986.helpers) "example.com:80"
  = Ok (None, "example.com:80") /\
  parseAuthority (helpers := Rfc3986.helpers) "user@[::1"
  = Err MISSING_RBRACKET_IN_HOST /\
  parseAuthority (helpers := Rfc3986.helpers) "user:pa%40ss:x@example.com:80"
  = Ok (Some (UserPassword "user" "pa@ss:x"), "example.com:80") /\
  parseAuthority (helpers := Rfc3986.helpers) "a@us%65r@example.com"
  = Ok (Some (User "a@user"), "example.com") /\
  parseAuthority (helpers := Rfc3986.helpers) "us er@example.com"
  = Err (ErrorsNew "net/url: invalid userinfo").
Proof.
  pose proof (parseAuthority_last_at_first_colon (helpers := Rfc3986.helpers))
    as [A [B [C [D E]]]].
  split; [|split; [|split; [|split]]].
  - exact (A "example.com:80" eq_refl).
  - exact (B "user" "[::1" _ eq_refl eq_refl).
  - exact (C "user" "pa%40ss:x" "example.com:80" "example.com:80"
             eq_refl eq_refl eq_refl eq_refl).
  - exact (D "a@us%65r" "example.com" "example.com" eq_refl eq_refl eq_refl eq_refl).
  - exact (E "us er" "example.com" "example.com" eq_refl eq_refl eq_refl).
Defined.

(** ** [parseHost] *)

Lemma prefix_cons (a b : ascii) (s1 s2 : string) :
  String.prefix (String a s1) (String b s2) = Ascii.eqb a b && String.prefix s1 s2.
Proof.
  cbn [String.prefix]. destruct (ascii_dec a b) as [->|n].
  - now rewrite Ascii.eqb_refl.
  - apply Ascii.eqb_neq in n. now rewrite n.
Qed.

Lemma prefix_zone_app (c : ascii) (t z : string) :
  String.prefix "%25" (String c t) = false ->
  String.prefix "%25" (String c (t ++ "%25" ++ z)) = false.
Proof.
  rewrite !prefix_cons. destruct (Ascii.eqb "%" c); [|reflexivity]. cbn [andb].
  destruct t as [|c1 t1]; [reflexivity|].
  change ((String c1 t1) ++ "%25" ++ z) with (String c1 (t1 ++ "%25" ++ z)).
  rewrite !prefix_cons. destruct (Ascii.eqb "2" c1); [|reflexivity]. cbn [andb].
  destruct t1 as [|c2 t2]; [reflexivity|].
  change ((String c2 t2) ++ "%25" ++ z) with (String c2 (t2 ++ "%25" ++ z)).
  rewrite !prefix_cons. destruct (Ascii.eqb "5" c2); [|reflexivity].
  rewrite prefix_empty. discriminate.
Qed.

(** The first "%25" of [pre ++ "%25" ++ z] is the one written, when [pre]
    holds none: no occurrence can straddle the seam. *)
Lemma indexOfNat_zone (pre z : string) :
  Js.indexOfNat pre "%25" = None ->
  Js.indexOfNat (pre ++ "%25" ++ z) "%25" = Some (String.length pre).
Proof.
  induction pre as [|c t IH]; intro H.
  - cbn. now rewrite prefix_empty.
  - change ((String c t) ++ "%25" ++ z) with (String c (t ++ "%25" ++ z)).
    cbn [Js.indexOfNat] in H |- *.
    destruct (String.prefix "%25" (String c t)) eqn:P; [discriminate|].
    rewrite (prefix_zone_app c t z P).
    destruct (Js.indexOfNat t "%25"); [discriminate|].
    now rewrite IH.
Qed.

Section HostParser.

Context {helpers : Helpers}.

Lemma parseHost_zone (pre z port : string) :
  strings.hasPrefix (pre ++ "%25" ++ z ++ "]" ++ port) "[" = true ->
  strings.contains pre "%25" = false ->
  strings.contains port "]" = false ->
  validOptionalPort port = true ->
  parseHost (pre ++ "%25" ++ z ++ "]" ++ port)
  = (host1 <- unescape pre encodeHost ;;
     host2 <- unescape ("%25" ++ z) encodeZone ;;
     host3 <- unescape ("]" ++ port) encodeHost ;;
     Ok (host1 ++ host2 ++ host3)).
Proof.
  intros B Hz Hp V. unfold parseHost. rewrite B.
  assert (E : pre ++ "%25" ++ z ++ "]" ++ port = (pre ++ "%25" ++ z) ++ String "]" port).
  { now rewrite !app_assoc_str. }
  assert (I : Js.lastIndexOf (pre ++ "%25" ++ z ++ "]" ++ port) "]"
              = Js.len (pre ++ "%25" ++ z)).
  { rewrite E. now apply lastIndexOf_last. }
  rewrite I.
  pose proof (len_nonneg (pre ++ "%25" ++ z)) as L.
  destruct (Js.len (pre ++ "%25" ++ z) <? 0) eqn:E0; [apply Z.ltb_lt in E0; lia|].
  assert (S1 : Js.sliceFrom (pre ++ "%25" ++ z ++ "]" ++ port) (Js.len (pre ++ "%25" ++ z) + 1)
               = port).
  { rewrite E. change (String "]" port) with ("]" ++ port).
    replace (Js.len (pre ++ "%25" ++ z) + 1)
      with (Js.len (pre ++ "%25" ++ z) + Js.len "]") by reflexivity.
    apply sliceFrom_skip. }
  rewrite S1, V. cbn [negb].
  assert (S2 : Js.slice (pre ++ "%25" ++ z ++ "]" ++ port) 0 (Js.len (pre ++ "%25" ++ z))
               = pre ++ "%25" ++ z).
  { rewrite E. apply slice_prefix. }
  rewrite S2.
  assert (Zi : Js.indexOf (pre ++ "%25" ++ z) "%25" = Js.len pre).
  { apply contains_false in Hz. unfold Js.indexOf.
    now rewrite (indexOfNat_zone pre z Hz). }
  rewrite !Zi. pose proof (len_nonneg pre) as L'.
  destruct (Js.len pre >=? 0) eqn:E1;
    [|rewrite Z.geb_leb in E1; apply Z.leb_gt in E1; lia].
  rewrite (slice_prefix pre ("%25" ++ z ++ "]" ++ port)).
  assert (S3 : Js.slice (pre ++ "%25" ++ z ++ "]" ++ port) (Js.len pre)
                 (Js.len (pre ++ "%25" ++ z)) = "%25" ++ z).
  { replace (pre ++ "%25" ++ z ++ "]" ++ port) with (pre ++ ("%25" ++ z) ++ "]" ++ port)
      by now rewrite !app_assoc_str.
    rewrite (len_app pre). apply slice_middle. }
  rewrite S3.
  assert (S4 : Js.sliceFrom (pre ++ "%25" ++ z ++ "]" ++ port) (Js.len (pre ++ "%25" ++ z))
               = "]" ++ port).
  { rewrite E. apply sliceFrom_app. }
  rewrite S4. reflexivity.
Qed.

End HostParser.

Lemma memChar_In (c : N) (set : string) :
  memChar c set = true -> In c (List.map charCode (list_ascii_of_string set)).
Proof.
  unfold memChar. intro H. apply existsb_exists in H as [x [I E]].
  apply N.eqb_eq in E. subst c. now apply in_map.
Qed.

Section HostParserClaims.

Context {helpers : Helpers}.

Lemma parseHost_no_bracket (host : string) :
  strings.hasPrefix host "[" = true ->
  strings.contains host "]" = false ->
  parseHost host = Err MISSING_RBRACKET_IN_HOST.
Proof.
  intros B H. unfold parseHost. rewrite B, (lastIndexOf_none _ _ H). reflexivity.
Qed.

Lemma parseHost_bad_port (pre port : string) :
  strings.hasPrefix (pre ++ "]" ++ port) "[" = true ->
  strings.contains port "]" = false ->
  validOptionalPort port = false ->
  parseHost (pre ++ "]" ++ port) = Err (INVALID_HOST_PORT port).
Proof.
  intros B H V. unfold parseHost. rewrite B.
  change ("]" ++ port) with (String "]" port).
  rewrite (lastIndexOf_last "]" pre port H).
  pose proof (len_nonneg pre) as L.
  destruct (Js.len pre <? 0) eqn:E0; [apply Z.ltb_lt in E0; lia|].
  change (String "]" port) with ("]" ++ port).
  replace (Js.len pre + 1) with (Js.len pre + Js.len "]") by reflexivity.
  rewrite sliceFrom_skip, V. reflexivity.
Qed.

(** C3, as the code has it: for every input of [parseHost] that starts
    with an opening bracket: without a closing bracket the result is
    MISSING_RBRACKET_IN_HOST; written as [pre ++ "]" ++ port] with no
    bracket in [port] (the split at the LAST closing bracket), a [port]
    that [validOptionalPort] refuses gives INVALID_HOST_PORT; and written
    as [pre ++ "%25" ++ z ++ "]" ++ port] with no "%25" in [pre] and a
    valid [port], the result is the concatenation of [pre] decoded in Host
    context, of ["%25" ++ z] decoded in Zone context and of ["]" ++ port]
    decoded in Host context, the first failure being the result.  In
    particular, for every [shouldEscape] that lets the letters, the digits,
    the colon and the brackets stand in a host and in a zone,
    [parseHost "[fe80::1%25en0]:8080"] is "[fe80::1%en0]:8080": the
    brackets and the port stay in the host. *)
Theorem parseHost_ip_literal :
  (forall host,
      strings.hasPrefix host "[" = true ->
      strings.contains host "]" = false ->
      parseHost host = Err MISSING_RBRACKET_IN_HOST) /\
  (forall pre port,
      strings.hasPrefix (pre ++ "]" ++ port) "[" = true ->
      strings.contains port "]" = false ->
      validOptionalPort port = false ->
      parseHost (pre ++ "]" ++ port) = Err (INVALID_HOST_PORT port)) /\
  (forall pre z port,
      strings.hasPrefix (pre ++ "%25" ++ z ++ "]" ++ port) "[" = true ->
      strings.contains pre "%25" = false ->
      strings.contains port "]" = false ->
      validOptionalPort port = true ->
      parseHost (pre ++ "%25" ++ z ++ "]" ++ port)
      = (host1 <- unescape pre encodeHost ;;
         host2 <- unescape ("%25" ++ z) encodeZone ;;
         host3 <- unescape ("]" ++ port) encodeHost ;;
         Ok (host1 ++ host2 ++ host3))) /\
  ((forall c, memChar c "[fe80::1en0]" = true ->
              shouldEscape c encodeHost = false /\ shouldEscape c encodeZone = false) ->
   parseHost "[fe80::1%25en0]:8080" = Ok "[fe80::1%en0]:8080").
Proof.
  split; [|split; [|split]].
  - apply parseHost_no_bracket.
  - apply parseHost_bad_port.
  - apply parseHost_zone.
  - intro SE.
    rewrite (parseHost_zone "[fe80::1" "en0" ":8080") by reflexivity.
    assert (H : forall c, memChar c "[fe80::1en0]" = true ->
                          shouldEscape c encodeHost = false) by (intros; now apply SE).
    assert (Z : forall c, memChar c "[fe80::1en0]" = true ->
                          shouldEscape c encodeZone = false) by (intros; now apply SE).
    unfold unescape.
    cbn -[shouldEscape]. rewrite !H, !Z by reflexivity.
    reflexivity.
Qed.

End HostParserClaims.

(** C3 at concrete hosts: "[fe80::1" has no closing bracket, "[::1]x" has
    the port "x", and "[fe80::1%25en0]:8080" has a zone. *)
Lemma parseHost_ip_literal_witness :
  parseHost (helpers := Rfc3986.helpers) "[fe80::1" = Err MISSING_RBRACKET_IN_HOST /\
  parseHost (helpers := Rfc3986.helpers) "[::1]x" = Err (INVALID_HOST_PORT "x") /\
  parseHost (helpers := Rfc3986.helpers) "[fe80::1%25en0]:8080" = Ok "[fe80::1%en0]:8080" /\
  parseHost (helpers := Rfc3986.helpers) "[fe80::1%25en0]:8080" = Ok "[fe80::1%en0]:8080".
Proof.
  pose proof (parseHost_ip_literal (helpers := Rfc3986.helpers)) as [A [B [C D]]].
  split; [|split; [|split]].
  - exact (A "[fe80::1" eq_refl eq_refl).
  - exact (B "[::1" "x" eq_refl eq_refl eq_refl).
  - exact (C "[fe80::1" "en0" ":8080" eq_refl eq_refl eq_refl eq_refl).
  - apply D. intros c H. apply memChar_In in H. cbn in H.
    repeat (destruct H as [H|H]; [subst c; now split|]).
    contradiction.
Defined.

(** C3, the counterexample: [Parse "http://[fe80::1%25en0]:8080/"] yields
    no host and no path, it fails; and the host text that [parseHost]
    gives for this authority keeps the brackets and the port. *)
Lemma Parse_ipv6_zone_example_rejected :
  Parse (helpers := Rfc3986.helpers) "http://[fe80::1%25en0]:8080/"
  = Err (OpError "parse" "http://[fe80::1%25en0]:8080/" PATH_UNEXPECTED_COLON) /\
  parseHost (helpers := Rfc3986.helpers) "[fe80::1%25en0]:8080" <> Ok "fe80::1%en0".
Proof. split; [reflexivity | vm_compute; discriminate]. Qed.

(** ** [unescape] *)

(** Induction along the scan: one character, or an escape of three. *)
Lemma string_ind3 (P : string -> Prop) :
  P "" ->
  (forall c t, P t -> (forall c1 c2 t', t = String c1 (String c2 t') -> P t') ->
               P (String c t)) ->
  forall s, P s.
Proof.
  intros P0 PS s.
  assert (H : P s /\ (forall c1 t1, s = String c1 t1 ->
                       P t1 /\ forall c2 t2, t1 = String c2 t2 -> P t2)).
  { induction s as [|c t [IH1 IH2]].
    - split; [exact P0 | discriminate].
    - split.
      + apply PS; [exact IH1|]. intros c1 c2 t' E. exact (proj2 (IH2 c1 (String c2 t') E) c2 t' eq_refl).
      + intros c1 t1 E. injection E as _ <-. split; [exact IH1|].
        intros c2 t2 E2. exact (proj1 (IH2 c2 t2 E2)). }
  exact (proj1 H).
Qed.

Lemma unhex_bound (c : ascii) : (unhex c < 16)%N.
Proof.
  unfold unhex. set (v := charCode c).
  destruct ((48 <=? v) && (v <=? 57))%N eqn:E1;
    [apply andb_prop in E1 as [A B]; apply N.leb_le in A, B; lia|].
  destruct ((97 <=? v) && (v <=? 102))%N eqn:E2;
    [apply andb_prop in E2 as [A B]; apply N.leb_le in A, B; lia|].
  destruct ((65 <=? v) && (v <=? 70))%N eqn:E3;
    [apply andb_prop in E3 as [A B]; apply N.leb_le in A, B; lia|].
  lia.
Qed.

Lemma lor_nibbles (x y : N) :
  (x < 16)%N -> (y < 16)%N -> (N.lor (N.shiftl x 4) y <? 128)%N = (x <? 8)%N.
Proof.
  intros Hx Hy.
  assert (E : N.shiftr (N.lor (N.shiftl x 4) y) 4 = x).
  { rewrite N.shiftr_lor, N.shiftr_shiftl_l by lia.
    rewrite N.sub_diag, N.shiftl_0_r, (N.shiftr_div_pow2 y), N.div_small by (simpl; lia).
    apply N.lor_0_r. }
  rewrite N.shiftr_div_pow2 in E. change (2 ^ 4)%N with 16%N in E.
  set (v := N.lor (N.shiftl x 4) y) in *.
  pose proof (N.Div0.div_mod v 16) as D.
  assert (M : (v mod 16 < 16)%N) by (apply N.mod_lt; lia).
  rewrite E in D. clearbody v. clear E.
  generalize dependent (v mod 16)%N. intros m D M.
  destruct (v <? 128)%N eqn:A, (x <? 8)%N eqn:B; try reflexivity.
  - apply N.ltb_lt in A. apply N.ltb_ge in B. lia.
  - apply N.ltb_ge in A. apply N.ltb_lt in B. lia.
Qed.

(** The decoded byte is ASCII exactly when the first digit is below 8. *)
Lemma hexByte_ascii (c1 c2 : ascii) : (hexByte c1 c2 <? 128)%N = (unhex c1 <? 8)%N.
Proof. apply lor_nibbles; apply unhex_bound. Qed.

Section Unescape.

Context {helpers : Helpers}.

(** Scanning [pre ++ rest] after [pre] was accepted goes on with [rest]. *)
Lemma unescapeScan_app (mode : encoding) (pre : string) :
  forall n hp n' hp' rest,
    unescapeScan mode pre n hp = Ok (n', hp') ->
    unescapeScan mode (pre ++ rest) n hp = unescapeScan mode rest n' hp'.
Proof.
  induction pre as [|c t IH IH3] using string_ind3; intros n hp n' hp' rest H.
  - cbn in H. now injection H as <- <-.
  - change ((String c t) ++ rest) with (String c (t ++ rest)).
    cbn [unescapeScan] in H |- *.
    destruct (Ascii.eqb c "%").
    + destruct t as [|c1 [|c2 t']]; try discriminate H.
      change ((String c1 (String c2 t')) ++ rest) with (String c1 (String c2 (t' ++ rest))).
      cbn [Js.take] in H |- *.
      destruct (negb (ishex c1) || negb (ishex c2)); [discriminate H|].
      destruct (encoding_eqb mode encodeHost && (unhex c1 <? 8)%N && _); [discriminate H|].
      destruct (encoding_eqb mode encodeZone && _); [discriminate H|].
      exact (IH3 c1 c2 t' eq_refl _ _ _ _ rest H).
    + destruct (Ascii.eqb c "+"); [exact (IH _ _ _ _ rest H)|].
      destruct (_ && shouldEscape (charCode c) mode); [discriminate H|].
      exact (IH _ _ _ _ rest H).
Qed.

Lemma unescape_clean (mode : encoding) (s : string) :
  isError (unescape s mode) = false ->
  exists n hp, unescapeScan mode s 0 false = Ok (n, hp).
Proof.
  unfold unescape. destruct (unescapeScan mode s 0 false) as [[n hp]|e]; [|discriminate].
  intros _. now exists n, hp.
Qed.

Lemma unescape_scan_err (mode : encoding) (s : string) (e : error) :
  unescapeScan mode s 0 false = Err e -> unescape s mode = Err e.
Proof. unfold unescape. now intros ->. Qed.

Lemma unescape_scan_ok (mode : encoding) (s : string) (n : Z) (hp : bool) :
  unescapeScan mode s 0 false = Ok (n, hp) -> isError (unescape s mode) = false.
Proof. unfold unescape. intros ->. now destruct ((n =? 0) && negb hp). Qed.

(** In Host context an ASCII escape other than "%25" stops the scan,
    wherever it stands. *)
Lemma unescapeScan_host_escape (c1 c2 : ascii) (post pre : string) :
  ishex c1 = true -> ishex c2 = true -> (unhex c1 <? 8)%N = true ->
  String "%" (String c1 (String c2 "")) <> "%25" ->
  forall n hp, exists e,
    unescapeScan encodeHost (pre ++ String "%" (String c1 (String c2 post))) n hp = Err e.
Proof.
  intros H1 H2 A NE.
  apply String.eqb_neq in NE.
  induction pre as [|c t IH IH3] using string_ind3; intros n hp.
  - cbn [append unescapeScan Ascii.eqb Bool.eqb]. rewrite H1, H2, A, NE. cbn. eauto.
  - change ((String c t) ++ String "%" (String c1 (String c2 post)))
      with (String c (t ++ String "%" (String c1 (String c2 post)))).
    cbn [unescapeScan].
    destruct (Ascii.eqb c "%").
    + destruct t as [|d1 [|d2 t']].
      * cbn. destruct (negb (ishex c1)); cbn; eauto.
      * cbn. rewrite orb_true_r. eauto.
      * change ((String d1 (String d2 t')) ++ String "%" (String c1 (String c2 post)))
          with (String d1 (String d2 (t' ++ String "%" (String c1 (String c2 post))))).
        cbv beta iota zeta.
        destruct (negb (ishex d1) || negb (ishex d2)); [eauto|].
        destruct (encoding_eqb encodeHost encodeHost && (unhex d1 <? 8)%N && _); [eauto|].
        destruct (encoding_eqb encodeHost encodeZone && _); [eauto|].
        apply (IH3 d1 d2 t' eq_refl).
    + destruct (Ascii.eqb c "+"); [apply IH|].
      destruct (_ && shouldEscape (charCode c) encodeHost); [eauto | apply IH].
Qed.

End Unescape.

Section UnescapeClaims.

Context {helpers : Helpers}.

Lemma unescapeScan_escape_host (c1 c2 : ascii) (post : string) (n : Z) (hp : bool) :
  ishex c1 = true -> ishex c2 = true -> (unhex c1 <? 8)%N = true ->
  String "%" (String c1 (String c2 "")) <> "%25" ->
  unescapeScan encodeHost (String "%" (String c1 (String c2 post))) n hp
  = Err (EscapeError (String "%" (String c1 (String c2 "")))).
Proof.
  intros H1 H2 A NE. apply String.eqb_neq in NE.
  cbn [unescapeScan Ascii.eqb Bool.eqb]. rewrite H1, H2, A, NE. reflexivity.
Qed.

Lemma unescapeScan_escape_zone (c1 c2 : ascii) (post : string) (n : Z) (hp : bool) :
  ishex c1 = true -> ishex c2 = true ->
  unescapeScan encodeZone (String "%" (String c1 (String c2 post))) n hp
  = if negb (String "%" (String c1 (String c2 "")) =? "%25")%string
       && negb (hexByte c1 c2 =? charCode " ")%N
       && shouldEscape (hexByte c1 c2) encodeHost
    then Err (EscapeError (String "%" (String c1 (String c2 ""))))
    else unescapeScan encodeZone post (n + 1) hp.
Proof.
  intros H1 H2. cbn [unescapeScan Ascii.eqb Bool.eqb]. rewrite H1, H2. reflexivity.
Qed.

(** C8, as the code has it.  Take a well-formed escape, a percent sign and
    two hex digits [c1 c2], whose decoded byte is ASCII and which is not the
    literal "%25".  In Host context every string holding it fails, and
    when the text before it decodes without error the failure is the
    escape error carrying these three characters.  In Zone context, after
    a text that decodes without error, the escape is refused with the same
    error when its byte is not a space and [shouldEscape] flags the byte in
    Host context, and it is accepted otherwise.  The literal "%25" is
    accepted in both contexts. *)
Theorem unescape_host_zone_ascii_escape (c1 c2 : ascii) :
  ishex c1 = true -> ishex c2 = true ->
  (hexByte c1 c2 <? 128)%N = true ->
  String "%" (String c1 (String c2 "")) <> "%25" ->
  let esc := String "%" (String c1 (String c2 "")) in
  (forall pre post, exists e, unescape (pre ++ esc ++ post) encodeHost = Err e) /\
  (forall pre post,
      isError (unescape pre encodeHost) = false ->
      unescape (pre ++ esc ++ post) encodeHost = Err (EscapeError esc)) /\
  (forall pre post,
      isError (unescape pre encodeZone) = false ->
      hexByte c1 c2 <> charCode " " ->
      shouldEscape (hexByte c1 c2) encodeHost = true ->
      unescape (pre ++ esc ++ post) encodeZone = Err (EscapeError esc)) /\
  (forall pre,
      isError (unescape pre encodeZone) = false ->
      hexByte c1 c2 = charCode " " \/ shouldEscape (hexByte c1 c2) encodeHost = false ->
      isError (unescape (pre ++ esc) encodeZone) = false) /\
  (forall pre,
      isError (unescape pre encodeHost) = false ->
      isError (unescape (pre ++ "%25") encodeHost) = false) /\
  (forall pre,
      isError (unescape pre encodeZone) = false ->
      isError (unescape (pre ++ "%25") encodeZone) = false).
Proof.
  intros H1 H2 A NE esc. subst esc. rewrite hexByte_ascii in A.
  split; [|split; [|split; [|split; [|split]]]].
  - intros pre post.
    destruct (unescapeScan_host_escape c1 c2 post pre H1 H2 A NE 0 false) as [e E].
    exists e. now apply unescape_scan_err.
  - intros pre post C. apply unescape_clean in C as [n [hp C]].
    apply unescape_scan_err.
    rewrite (unescapeScan_app _ _ _ _ _ _ ((String "%" (String c1 (String c2 ""))) ++ post) C).
    now apply unescapeScan_escape_host.
  - intros pre post C NS SE. apply unescape_clean in C as [n [hp C]].
    apply unescape_scan_err.
    rewrite (unescapeScan_app _ _ _ _ _ _ ((String "%" (String c1 (String c2 ""))) ++ post) C).
    change ((String "%" (String c1 (String c2 ""))) ++ post) with (String "%" (String c1 (String c2 post))).
    rewrite (unescapeScan_escape_zone c1 c2 post n hp H1 H2), SE.
    apply String.eqb_neq in NE. apply N.eqb_neq in NS. now rewrite NE, NS.
  - intros pre C D. apply unescape_clean in C as [n [hp C]].
    apply (unescape_scan_ok encodeZone (pre ++ (String "%" (String c1 (String c2 "")))) (n + 1) hp).
    rewrite (unescapeScan_app _ _ _ _ _ _ (String "%" (String c1 (String c2 ""))) C).
    rewrite (unescapeScan_escape_zone c1 c2 "" n hp H1 H2).
    destruct D as [D|D].
    + apply N.eqb_eq in D. rewrite D. now rewrite andb_false_r.
    + rewrite D. now rewrite andb_false_r.
  - intros pre C. apply unescape_clean in C as [n [hp C]].
    apply (unescape_scan_ok encodeHost (pre ++ "%25") (n + 1) hp).
    now rewrite (unescapeScan_app _ _ _ _ _ _ "%25" C).
  - intros pre C. apply unescape_clean in C as [n [hp C]].
    apply (unescape_scan_ok encodeZone (pre ++ "%25") (n + 1) hp).
    now rewrite (unescapeScan_app _ _ _ _ _ _ "%25" C).
Qed.

End UnescapeClaims.

(** C8 at the escape "%41" (the letter A): refused inside "a%41b" in Host
    context, accepted after "a" in Zone context, where "%25" is accepted
    as well. *)
Lemma unescape_host_zone_ascii_escape_witness :
  unescape (helpers := Rfc3986.helpers) "a%41b" encodeHost = Err (EscapeError "%41") /\
  isError (unescape (helpers := Rfc3986.helpers) "a%41" encodeZone) = false /\
  isError (unescape (helpers := Rfc3986.helpers) "a%25" encodeZone) = false.
Proof.
  pose proof (unescape_host_zone_ascii_escape (helpers := Rfc3986.helpers) "4" "1"
                eq_refl eq_refl eq_refl ltac:(discriminate)) as [_ [B [_ [D [_ F]]]]].
  split; [|split].
  - exact (B "a" "b" eq_refl).
  - exact (D "a" eq_refl (or_intror eq_refl)).
  - exact (F "a" eq_refl).
Defined.

(** C8, the counterexample: in Zone context the well-formed escapes "%20"
    and "%41", whose decoded values are the ASCII space and the ASCII
    letter A and which are not "%25", do not fail: they decode.  The first
    is let through by line 177 whatever [shouldEscape] is. *)
Lemma unescape_zone_ascii_escape_accepted :
  unescape (helpers := Rfc3986.helpers) "%20" encodeZone = Ok " " /\
  unescape (helpers := Rfc3986.helpers) "%41" encodeZone = Ok "A".
Proof. split; reflexivity. Qed.

(** ** [parse]: the query split *)

Lemma take_drop (n : nat) (s : string) : Js.take n s ++ Js.drop n s = s.
Proof.
  revert s. induction n as [|n IH]; intros [|c s]; cbn; try reflexivity.
  now rewrite IH.
Qed.

Lemma take_short (n : nat) (s : string) : (String.length s <= n)%nat -> Js.take n s = s.
Proof.
  revert s. induction n as [|n IH]; intros [|c s] H; cbn in *; try reflexivity; try lia.
  rewrite IH; [reflexivity | lia].
Qed.

Lemma length_drop (n : nat) (s : string) :
  String.length (Js.drop n s) = (String.length s - n)%nat.
Proof.
  revert s. induction n as [|n IH]; intros [|c s]; cbn; try reflexivity. apply IH.
Qed.

(** A string that ends with "?" is its [slice(0, length-1)] followed by
    the question mark. *)
Lemma endsWith_strip (rest : string) :
  Js.endsWith rest "?" = true ->
  rest = Js.slice rest 0 (Js.len rest - 1) ++ "?".
Proof.
  unfold Js.endsWith. intro H. apply andb_prop in H as [L E].
  apply Z.leb_le in L. apply String.eqb_eq in E.
  change (Js.len "?") with 1 in *.
  unfold Js.slice, Js.clamp in *.
  destruct (Js.len rest - 1 <? 0) eqn:N1; [apply Z.ltb_lt in N1; lia|].
  destruct (Js.len rest <? 0) eqn:N2; [apply Z.ltb_lt in N2; lia|].
  destruct (0 <? 0) eqn:N3; [discriminate|].
  replace (Z.min (Js.len rest - 1) (Js.len rest)) with (Js.len rest - 1) in * by lia.
  replace (Z.min (Js.len rest) (Js.len rest)) with (Js.len rest) in E by lia.
  replace (Z.min 0 (Js.len rest)) with 0 by lia.
  rewrite Z.sub_0_r. change (Z.to_nat 0) with 0%nat. rewrite drop_0.
  rewrite take_short in E.
  - rewrite <- E. symmetry. apply take_drop.
  - rewrite length_drop. unfold Js.len in *. lia.
Qed.

Lemma splitAux_single (d : ascii) (s cur : string) :
  List.length (Js.splitAux (String d "") s 0 cur) = S (occurrences d s).
Proof.
  revert cur. induction s as [|c s IH]; intro cur; cbn [Js.splitAux occurrences].
  - reflexivity.
  - rewrite prefix_single. destruct (Ascii.eqb d c); cbn; now rewrite IH.
Qed.

(** [strings.count s c] counts the characters [c] of [s]. *)
Lemma count_single (d : ascii) (s : string) :
  strings.count s (String d "") = Z.of_nat (occurrences d s).
Proof. unfold strings.count, Js.split. rewrite splitAux_single. lia. Qed.

Lemma occurrences_zero (d : ascii) (s : string) :
  (0 <? occurrences d s)%nat = strings.contains s (String d "").
Proof.
  unfold strings.contains, Js.indexOf.
  induction s as [|c s IH]; [reflexivity|].
  cbn [occurrences Js.indexOfNat]. rewrite prefix_single.
  destruct (Ascii.eqb d c); [reflexivity|].
  cbn [Nat.add]. rewrite IH.
  destruct (Js.indexOfNat s (String d "")) as [i|]; cbn [option_map]; [|reflexivity].
  destruct (Z.of_nat i >=? 0) eqn:A;
    [|rewrite Z.geb_leb in A; apply Z.leb_gt in A; lia].
  symmetry. rewrite Z.geb_leb. apply Z.leb_le. lia.
Qed.

Lemma endsWith_contains (s : string) :
  Js.endsWith s "?" = true -> strings.contains s "?" = true.
Proof.
  intro H. apply endsWith_strip in H. rewrite H.
  exact (contains_first "?" (Js.slice s 0 (Js.len s - 1)) "").
Qed.

Lemma splitQuery_no_query (url : URL.t) (s : string) :
  strings.contains s "?" = false ->
  splitQuery url s = (URL.setRawQuery url "", s).
Proof.
  intro N. unfold splitQuery.
  destruct (Js.endsWith s "?") eqn:E.
  - apply endsWith_contains in E. congruence.
  - cbn [andb]. unfold strings.cut, Js.indexOf.
    apply contains_false in N. now rewrite N.
Qed.

Lemma occurrences_app (d : ascii) (a b : string) :
  occurrences d (a ++ b) = (occurrences d a + occurrences d b)%nat.
Proof.
  induction a as [|c a IH]; [reflexivity|].
  cbn [append occurrences]. rewrite IH. lia.
Qed.

Lemma occurrences_none (d : ascii) (s : string) :
  strings.contains s (String d "") = false -> occurrences d s = 0%nat.
Proof.
  intro H. rewrite <- occurrences_zero in H. apply Nat.ltb_ge in H. lia.
Qed.

Lemma endsWith_app_question (a : string) : Js.endsWith (a ++ "?") "?" = true.
Proof.
  unfold Js.endsWith. rewrite len_app. change (Js.len "?") with 1.
  pose proof (len_nonneg a) as L.
  replace (Js.len a + 1 - 1) with (Js.len a) by lia.
  replace (a ++ "?") with (a ++ "?" ++ "") by reflexivity.
  replace (Js.len a + 1) with (Js.len a + Js.len "?") by reflexivity.
  rewrite slice_middle. cbn. rewrite andb_true_r. apply Z.leb_le. lia.
Qed.

(** A non-empty tail of a string that ends with "?" ends with "?". *)
Lemma tail_ends_with_question (x b r : string) :
  x ++ b = r ++ "?" -> b <> "" -> exists b', b = b' ++ "?".
Proof.
  revert r. induction x as [|c x IH]; intros r E N.
  - now exists r.
  - destruct r as [|c' r].
    + cbn in E. injection E as _ E. destruct x; [cbn in E; now elim N | discriminate E].
    + cbn in E. injection E as _ E. exact (IH r E N).
Qed.

(** The query split, by concatenation: the three shapes of [rest]. *)
Lemma splitQuery_force (url : URL.t) (a : string) :
  strings.contains a "?" = false ->
  splitQuery url (a ++ "?") = (URL.setForceQuery url true, a).
Proof.
  intro N. unfold splitQuery. rewrite endsWith_app_question, count_single, occurrences_app.
  rewrite (occurrences_none "?" a N). cbn [occurrences Ascii.eqb Bool.eqb Nat.add andb].
  cbn [Z.of_nat Pos.of_succ_nat Z.eqb Pos.eqb]. f_equal.
  rewrite len_app. change (Js.len "?") with 1.
  replace (Js.len a + 1 - 1) with (Js.len a) by lia. apply slice_prefix.
Qed.

Lemma splitQuery_first_question (url : URL.t) (a b : string) :
  strings.contains a "?" = false -> b <> "" ->
  splitQuery url (a ++ "?" ++ b) = (URL.setRawQuery url b, a).
Proof.
  intros N NB. unfold splitQuery.
  assert (C : Js.endsWith (a ++ "?" ++ b) "?"
              && (strings.count (a ++ "?" ++ b) "?" =? 1) = false).
  { destruct (Js.endsWith (a ++ "?" ++ b) "?") eqn:E; [|reflexivity]. cbn [andb].
    apply endsWith_strip in E.
    rewrite <- app_assoc_str in E.
    destruct (tail_ends_with_question _ _ _ E NB) as [b' ->].
    rewrite count_single, !occurrences_app, (occurrences_none "?" a N).
    cbn [occurrences Ascii.eqb Bool.eqb Nat.add].
    apply Z.eqb_neq. lia. }
  rewrite C. change ("?" ++ b) with (String "?" b).
  now rewrite (cut_first "?" a b N).
Qed.

Section QuerySplit.

Context {helpers : Helpers}.

Lemma setPath_fields (url u : URL.t) (p : string) :
  setPath url p = Ok u ->
  sameQueryFields u url /\ URL.Host u = URL.Host url /\ URL.User u = URL.User url.
Proof.
  unfold setPath. destruct (unescape p encodePath) as [path|e]; cbn [bind]; [|discriminate].
  destruct (escape path encodePath =? p)%string; intro H; injection H as <-;
    now repeat split.
Qed.

Lemma parseHier_fields (url u : URL.t) (rest : string) (viaRequest : bool) :
  parseHier url rest viaRequest = Ok u ->
  sameQueryFields u url /\ URL.Host u = URL.Host url /\ URL.User u = URL.User url.
Proof.
  unfold parseHier.
  destruct (_ && strings.hasPrefix rest "//").
  - destruct (parseAuthority _); [|discriminate]. apply setPath_fields.
  - destruct (_ && strings.hasPrefix rest "/").
    + intro H. apply setPath_fields in H. exact H.
    + apply setPath_fields.
Qed.

Lemma parseAfterQuery_fields (url u : URL.t) (rest : string) (viaRequest : bool) :
  parseAfterQuery url rest viaRequest = Ok u ->
  sameQueryFields u url /\ URL.Host u = URL.Host url /\ URL.User u = URL.User url.
Proof.
  unfold parseAfterQuery.
  destruct (negb (startsWithSlash rest)); [|apply parseHier_fields].
  destruct (URL.differs (URL.Scheme url) "").
  - intro H. injection H as <-. now repeat split.
  - destruct viaRequest; [discriminate|].
    destruct (negb _); [discriminate | apply parseHier_fields].
Qed.

(** C6: for every input on which [parse] succeeds, with [rest] the
    remainder that [getScheme] returns.  If [rest] ends with "?" and holds
    one question mark in all, that is, [rest] is [a ++ "?"] with no
    question mark in [a], the result has [ForceQuery] true and a
    [RawQuery] that was never assigned, which reads as the empty string,
    and the parse goes on with [a], the question mark stripped.
    Otherwise [rest] is split at its FIRST question mark: when [rest] is
    [a ++ "?" ++ b] with no question mark in [a] and a non-empty [b],
    [RawQuery] is [b], [ForceQuery] stays unset and the parse goes on with
    [a]; when [rest] holds no question mark, [RawQuery] is the empty
    string and the parse goes on with [rest] (the input "*" apart, which
    is answered before any split, with no query).  In every successful
    result, [ForceQuery] true implies an empty [RawQuery]. *)
Theorem parse_query_split (rawURL : string) (viaRequest : bool) (u : URL.t) :
  parse rawURL viaRequest = Ok u ->
  exists sch,
    getScheme rawURL = Ok sch /\
    let rest := Scheme.Path sch in
    let url := URL.setScheme URL.empty (Js.toLowerCase (Scheme.Scheme sch)) in
    (forall a,
        rest = a ++ "?" -> strings.contains a "?" = false ->
        URL.ForceQuery u = Some true /\
        URL.RawQuery u = None /\ URL.text (URL.RawQuery u) = "" /\
        parse rawURL viaRequest
        = parseAfterQuery (URL.setForceQuery url true) a viaRequest) /\
    (forall a b,
        rest = a ++ "?" ++ b -> strings.contains a "?" = false -> b <> "" ->
        URL.ForceQuery u = None /\ URL.RawQuery u = Some b /\
        parse rawURL viaRequest
        = parseAfterQuery (URL.setRawQuery url b) a viaRequest) /\
    (strings.contains rest "?" = false ->
     URL.ForceQuery u = None /\ URL.text (URL.RawQuery u) = "" /\
     (rawURL = "*" \/
      (URL.RawQuery u = Some "" /\
       parse rawURL viaRequest
       = parseAfterQuery (URL.setRawQuery url "") rest viaRequest))) /\
    (URL.ForceQuery u = Some true -> URL.text (URL.RawQuery u) = "").
Proof.
  intro P. unfold parse in P |- *.
  destruct (stringContainsCTLByte rawURL); [discriminate|].
  destruct ((rawURL =? "")%string && viaRequest); [discriminate|].
  destruct (rawURL =? "*")%string eqn:Star.
  - apply String.eqb_eq in Star. subst rawURL. injection P as <-.
    exists (Scheme.mk "" "*"). split; [reflexivity|]. cbv zeta. cbn [Scheme.Path].
    split; [|split; [|split]].
    + intros a E. pose proof (contains_first "?" a "") as T.
      change (String "?" "") with "?" in T. rewrite <- E in T. discriminate T.
    + intros a b E. pose proof (contains_first "?" a b) as T.
      change (String "?" b) with ("?" ++ b) in T. rewrite <- E in T. discriminate T.
    + intros _. repeat split. now left.
    + discriminate.
  - destruct (getScheme rawURL) as [sch|e]; [|discriminate].
    exists sch. split; [reflexivity|]. cbv zeta.
    split; [|split; [|split]].
    + intros a E N. rewrite E in P |- *.
      rewrite splitQuery_force in P |- * by exact N. cbn [fst snd] in P |- *.
      destruct (parseAfterQuery_fields _ _ _ _ P) as [[F [R _]] _]. cbn in F, R.
      rewrite F, R. now repeat split.
    + intros a b E N NB. rewrite E in P |- *.
      rewrite splitQuery_first_question in P |- * by assumption. cbn [fst snd] in P |- *.
      destruct (parseAfterQuery_fields _ _ _ _ P) as [[F [R _]] _]. cbn in F, R.
      rewrite F, R. now repeat split.
    + intros N. rewrite splitQuery_no_query in P |- * by exact N. cbn [fst snd] in P |- *.
      destruct (parseAfterQuery_fields _ _ _ _ P) as [[F [R _]] _]. cbn in F, R.
      rewrite F, R. repeat split. right. now split.
    + unfold splitQuery in P.
      destruct (Js.endsWith (Scheme.Path sch) "?"
                && (strings.count (Scheme.Path sch) "?" =? 1));
        cbn [fst snd] in P;
        destruct (parseAfterQuery_fields _ _ _ _ P) as [[F [R _]] _];
        cbn in F, R; rewrite F, R; [reflexivity | discriminate].
Qed.

End QuerySplit.

(** C6 at the inputs "/a?", "/a?x=1?y" and "/a". *)
Lemma parse_query_split_witness :
  (exists u, parse (helpers := Rfc3986.helpers) "/a?" false = Ok u /\
             URL.ForceQuery u = Some true /\ URL.RawQuery u = None /\
             URL.Path u = Some "/a") /\
  (exists u, parse (helpers := Rfc3986.helpers) "/a?x=1?y" false = Ok u /\
             URL.ForceQuery u = None /\ URL.RawQuery u = Some "x=1?y" /\
             URL.Path u = Some "/a") /\
  (exists u, parse (helpers := Rfc3986.helpers) "/a" false = Ok u /\
             URL.ForceQuery u = None /\ URL.text (URL.RawQuery u) = "" /\
             URL.Path u = Some "/a").
Proof.
  split; [|split].
  - eexists. split; [reflexivity|].
    destruct (parse_query_split (helpers := Rfc3986.helpers) "/a?" false _ eq_refl)
      as [sch [E [A _]]].
    injection E as <-.
    destruct (A "/a" eq_refl eq_refl) as [F [R _]].
    split; [exact F | split; [exact R | reflexivity]].
  - eexists. split; [reflexivity|].
    destruct (parse_query_split (helpers := Rfc3986.helpers) "/a?x=1?y" false _ eq_refl)
      as [sch [E [_ [B _]]]].
    injection E as <-.
    destruct (B "/a" "x=1?y" eq_refl eq_refl ltac:(discriminate)) as [F [R _]].
    split; [exact F | split; [exact R | reflexivity]].
  - eexists. split; [reflexivity|].
    destruct (parse_query_split (helpers := Rfc3986.helpers) "/a" false _ eq_refl)
      as [sch [E [_ [_ [C _]]]]].
    injection E as <-.
    destruct (C eq_refl) as [F [T _]].
    split; [exact F | split; [exact T | reflexivity]].
Defined.

(** ** [parse]: where PATH_UNEXPECTED_COLON comes from *)


Section ErrorSources.

Context {helpers : Helpers}.








End ErrorSources.



(** ** [Parse]: control characters and the fragment *)

Lemma slice_0_take (s : string) (k : nat) : Js.slice s 0 (Z.of_nat k) = Js.take k s.
Proof.
  unfold Js.slice, Js.clamp. pose proof (len_nonneg s) as L.
  destruct (0 <? 0) eqn:E0; [discriminate|].
  destruct (Z.of_nat k <? 0) eqn:E1; [apply Z.ltb_lt in E1; lia|].
  replace (Z.min 0 (Js.len s)) with 0 by lia.
  rewrite Z.sub_0_r. change (Z.to_nat 0) with 0%nat. rewrite drop_0.
  destruct (Z.le_gt_cases (Z.of_nat k) (Js.len s)) as [H|H].
  - replace (Z.min (Z.of_nat k) (Js.len s)) with (Z.of_nat k) by lia.
    now rewrite Nat2Z.id.
  - replace (Z.min (Z.of_nat k) (Js.len s)) with (Js.len s) by lia.
    unfold Js.len in *. rewrite Nat2Z.id, take_all.
    symmetry. apply take_short. lia.
Qed.

(** What precedes the first [d], character by character. *)
Lemma before_cut_cons (d x : ascii) (t : string) :
  strings.before (strings.cut (String x t) (String d ""))
  = if Ascii.eqb d x then "" else String x (strings.before (strings.cut t (String d ""))).
Proof.
  unfold strings.cut, Js.indexOf. cbn [Js.indexOfNat]. rewrite prefix_single.
  destruct (Ascii.eqb d x); [reflexivity|].
  destruct (Js.indexOfNat t (String d "")) as [i|]; cbn [option_map].
  - destruct (Z.of_nat (S i) >=? 0) eqn:A;
      [|rewrite Z.geb_leb in A; apply Z.leb_gt in A; lia].
    destruct (Z.of_nat i >=? 0) eqn:B;
      [|rewrite Z.geb_leb in B; apply Z.leb_gt in B; lia].
    cbn [strings.before]. now rewrite !slice_0_take.
  - reflexivity.
Qed.


Lemma stringContainsCTLByte_at (pre post : string) (c : ascii) :
  isControl c = true -> stringContainsCTLByte (pre ++ String c post) = true.
Proof.
  intro H. induction pre as [|x pre IH]; cbn [append stringContainsCTLByte].
  - unfold isControl in H. now rewrite H.
  - now destruct (_ || _)%bool.
Qed.


Section ControlCharacters.

Context {helpers : Helpers}.


End ControlCharacters.



(** ** index.ts and part_000 *)

Section TwoFiles.

Context {helpers : Helpers}.

(** C10, the divergence: whatever the input and the flag, a result of the
    [parse] of index.ts has neither [Host] nor [User] set: lines 376-379
    test what [parseAuthority] returns and drop it, where line 164 of
    part_000 stores both. *)
Theorem parse_index_drops_authority (rawURL : string) (viaRequest : bool) (u : URL.t) :
  parse rawURL viaRequest = Ok u ->
  URL.Host u = None /\ URL.User u = None.
Proof.
  unfold parse.
  destruct (stringContainsCTLByte rawURL); [discriminate|].
  destruct ((rawURL =? "")%string && viaRequest); [discriminate|].
  destruct (rawURL =? "*")%string.
  - intro H. injection H as <-. now split.
  - destruct (getScheme rawURL) as [sch|e]; [|discriminate].
    intro H. apply parseAfterQuery_fields in H as [_ [A B]].
    rewrite A, B. unfold splitQuery. now destruct (_ && _).
Qed.

End TwoFiles.

(** C10 at the failing input "//user:pw@example.com/a" with viaRequest
    false: index.ts returns no host and no user, part_000, given the same
    [parseAuthority] and [setPath], the host "example.com" and the user
    "user" with password "pw". *)
Lemma parse_index_drops_authority_witness :
  exists u1 u2,
    parse (helpers := Rfc3986.helpers) "//user:pw@example.com/a" false = Ok u1 /\
    parse000 (helpers := Rfc3986.helpers) "//user:pw@example.com/a" false = Ok u2 /\
    URL.Host u1 = None /\ URL.User u1 = None /\
    URL.Host u2 = Some "example.com" /\ URL.User u2 = Some (UserPassword "user" "pw") /\
    u1 <> u2.
Proof.
  eexists. eexists. split; [reflexivity|]. split; [reflexivity|].
  destruct (parse_index_drops_authority (helpers := Rfc3986.helpers)
              "//user:pw@example.com/a" false _ eq_refl) as [A B].
  split; [exact A|]. split; [exact B|].
  split; [reflexivity|]. split; [reflexivity|]. discriminate.
Defined.

(** * Further properties of the code *)

(** ** The [strings] namespace *)

Lemma prefix_drop (p s : string) :
  String.prefix p s = true -> s = p ++ Js.drop (String.length p) s.
Proof.
  revert s. induction p as [|a p IH]; intros s H.
  - cbn. now destruct s.
  - destruct s as [|b s]; [discriminate H|].
    rewrite prefix_cons in H. apply andb_prop in H as [E H].
    apply Ascii.eqb_eq in E. subst b. cbn. f_equal. now apply IH.
Qed.

Lemma prefix_app_true (p t : string) : String.prefix p (p ++ t) = true.
Proof.
  induction p as [|a p IH]; cbn [append]; [apply prefix_empty|].
  now rewrite prefix_cons, Ascii.eqb_refl.
Qed.

Lemma drop_long (n : nat) (s : string) : (String.length s <= n)%nat -> Js.drop n s = "".
Proof.
  revert s. induction n as [|n IH]; intros [|c s] H; cbn in *; try reflexivity; try lia.
  apply IH. lia.
Qed.

Lemma sliceFrom_drop (s : string) (k : nat) : Js.sliceFrom s (Z.of_nat k) = Js.drop k s.
Proof.
  unfold Js.sliceFrom, Js.slice, Js.clamp. pose proof (len_nonneg s) as L.
  destruct (Z.of_nat k <? 0) eqn:E1; [apply Z.ltb_lt in E1; lia|].
  destruct (Js.len s <? 0) eqn:E2; [apply Z.ltb_lt in E2; lia|].
  replace (Z.min (Js.len s) (Js.len s)) with (Js.len s) by lia.
  destruct (Z.le_gt_cases (Z.of_nat k) (Js.len s)) as [H|H].
  - replace (Z.min (Z.of_nat k) (Js.len s)) with (Z.of_nat k) by lia.
    rewrite Nat2Z.id. apply take_short. rewrite length_drop. unfold Js.len in *. lia.
  - replace (Z.min (Z.of_nat k) (Js.len s)) with (Js.len s) by lia.
    rewrite Z.sub_diag. unfold Js.len in *. rewrite Nat2Z.id.
    rewrite !drop_long by lia. reflexivity.
Qed.

Lemma indexOfNat_split (s sep : string) (i : nat) :
  Js.indexOfNat s sep = Some i ->
  s = Js.take i s ++ sep ++ Js.drop (i + String.length sep) s.
Proof.
  revert i. induction s as [|c s IH]; intros i H; cbn [Js.indexOfNat] in H.
  - destruct (String.prefix sep "") eqn:P; [|discriminate].
    injection H as <-. cbn [Js.take append Nat.add]. now apply prefix_drop.
  - destruct (String.prefix sep (String c s)) eqn:P.
    + injection H as <-. cbn [Js.take append Nat.add]. now apply prefix_drop.
    + destruct (Js.indexOfNat s sep) as [j|]; [|discriminate].
      injection H as <-. cbn [Js.take Js.drop append Nat.add]. f_equal. now apply IH.
Qed.

(** X1: [strings.cut] loses nothing.  [found] says whether [sep] occurs
    in [s]; when it does, [s] is [before], [sep] and [after] put together
    again; when it does not, [before] is [s] and [after] is empty. *)
Theorem cut_reassembles (s sep : string) :
  let c := strings.cut s sep in
  strings.found c = strings.contains s sep /\
  s = strings.before c ++ (if strings.found c then sep ++ strings.after c else "") /\
  (if strings.found c then True else strings.after c = "").
Proof.
  unfold strings.cut, strings.contains, Js.indexOf.
  destruct (Js.indexOfNat s sep) as [i|] eqn:I.
  - destruct (Z.of_nat i >=? 0) eqn:A;
      [|rewrite Z.geb_leb in A; apply Z.leb_gt in A; lia].
    cbn. repeat split.
    rewrite slice_0_take. unfold Js.len. rewrite <- Nat2Z.inj_add, sliceFrom_drop.
    now apply indexOfNat_split.
  - cbn. repeat split. now rewrite app_empty_r.
Qed.

(** X2: [strings.cut] cuts at the FIRST occurrence of a one-character
    separator: [before] holds none. *)
Theorem cut_before_has_no_separator (d : ascii) (s : string) :
  strings.contains (strings.before (strings.cut s (String d ""))) (String d "") = false.
Proof.
  induction s as [|x s IH].
  - reflexivity.
  - rewrite before_cut_cons. destruct (Ascii.eqb d x) eqn:E; [reflexivity|].
    apply contains_false in IH. apply contains_false.
    cbn [Js.indexOfNat]. now rewrite prefix_single, E, IH.
Qed.

(** X3: [strings.hasPrefix s prefix] holds exactly when [s] is [prefix]
    followed by some text. *)
Theorem hasPrefix_iff_append (s p : string) :
  strings.hasPrefix s p = true <-> exists t, s = p ++ t.
Proof.
  unfold strings.hasPrefix. split.
  - intro H. apply andb_prop in H as [_ H]. apply String.eqb_eq in H.
    unfold Js.len in H. rewrite slice_0_take in H.
    exists (Js.drop (String.length p) s). rewrite <- H at 1. symmetry. apply take_drop.
  - intros [t ->]. rewrite slice_prefix, String.eqb_refl, len_app.
    pose proof (len_nonneg t). rewrite andb_true_r, Z.geb_leb. apply Z.leb_le. lia.
Qed.

Lemma hasPrefix_iff_append_witness :
  strings.hasPrefix "//host/path" "//" = true /\ exists t, "//host" = "//" ++ t.
Proof.
  split.
  - apply (proj2 (hasPrefix_iff_append "//host/path" "//")). now exists "host/path".
  - apply (proj1 (hasPrefix_iff_append "//host" "//")). reflexivity.
Defined.

(** X4: for a one-character [c], [strings.count s c] is the number of
    characters [c] in [s]; it is positive exactly when [s] contains [c],
    and never negative. *)
Theorem count_is_number_of_occurrences (d : ascii) (s : string) :
  strings.count s (String d "") = Z.of_nat (occurrences d s) /\
  (strings.count s (String d "") >? 0) = strings.contains s (String d "") /\
  0 <= strings.count s (String d "").
Proof.
  assert (E : strings.count s (String d "") = Z.of_nat (occurrences d s)).
  { unfold strings.count, Js.split. rewrite splitAux_single. lia. }
  rewrite E. split; [reflexivity|]. split; [|lia].
  rewrite <- occurrences_zero.
  destruct (0 <? occurrences d s)%nat eqn:A.
  - apply Nat.ltb_lt in A. rewrite Z.gtb_ltb. apply Z.ltb_lt. lia.
  - apply Nat.ltb_ge in A. rewrite Z.gtb_ltb. apply Z.ltb_ge. lia.
Qed.

(** ** [stringContainsCTLByte], [validOptionalPort], [ishex] and [unhex] *)

Lemma stringContainsCTLByte_cons (c : ascii) (s : string) :
  stringContainsCTLByte (String c s) = isControl c || stringContainsCTLByte s.
Proof. cbn [stringContainsCTLByte]. unfold isControl. now destruct (_ || _)%bool. Qed.

Lemma stringContainsCTLByte_app (a b : string) :
  stringContainsCTLByte (a ++ b) = stringContainsCTLByte a || stringContainsCTLByte b.
Proof.
  induction a as [|c a IH]; [reflexivity|].
  cbn [append]. now rewrite !stringContainsCTLByte_cons, IH, orb_assoc.
Qed.

(** X5: [stringContainsCTLByte s] holds exactly when some character of [s]
    has a code below 0x20 or equal to 0x7F; codes from 0x80 on are let
    through.  A successful [parse] means that the input held no such
    character. *)
Theorem stringContainsCTLByte_iff_control (s : string) :
  (stringContainsCTLByte s = true <->
   exists pre c post, s = pre ++ String c post /\
                      ((charCode c < 32)%N \/ charCode c = 127%N)) /\
  (forall (helpers : Helpers) viaRequest u,
      parse s viaRequest = Ok u -> stringContainsCTLByte s = false).
Proof.
  split; [split|].
  - induction s as [|c s IH]; [discriminate|].
    rewrite stringContainsCTLByte_cons. intro H. apply orb_prop in H as [H|H].
    + exists "", c, s. split; [reflexivity|].
      unfold isControl in H. apply orb_prop in H as [H|H].
      * left. now apply N.ltb_lt.
      * right. now apply N.eqb_eq.
    + destruct (IH H) as [pre [x [post [E B]]]].
      exists (String c pre), x, post. split; [now rewrite E | exact B].
  - intros [pre [c [post [-> B]]]]. apply stringContainsCTLByte_at.
    unfold isControl. destruct B as [B|B].
    + apply N.ltb_lt in B. now rewrite B.
    + apply N.eqb_eq in B. rewrite B. apply orb_true_r.
  - intros helpers viaRequest u. unfold parse.
    now destruct (stringContainsCTLByte s).
Qed.

Lemma stringContainsCTLByte_iff_control_witness :
  stringContainsCTLByte ("a" ++ String "127" "b") = true /\
  stringContainsCTLByte "/a" = false.
Proof.
  split.
  - apply (proj2 (proj1 (stringContainsCTLByte_iff_control ("a" ++ String "127" "b")))).
    exists "a", "127"%char, "b". split; [reflexivity | now right].
  - exact (proj2 (stringContainsCTLByte_iff_control "/a") Rfc3986.helpers false _ eq_refl).
Defined.

Lemma allDigits_forallb (s : string) :
  allDigits s = forallb isDigitChar (list_ascii_of_string s).
Proof.
  induction s as [|c s IH]; [reflexivity|].
  cbn [allDigits list_ascii_of_string forallb]. unfold isDigitChar.
  rewrite !N.ltb_antisym, IH.
  now destruct (48 <=? charCode c)%N, (charCode c <=? 57)%N.
Qed.

(** X6: [validOptionalPort] accepts the empty string and a colon followed
    by decimal digits only (none included), and nothing else: no sign, no
    bound on the number of digits or on their value. *)
Theorem validOptionalPort_iff (port : string) :
  validOptionalPort port = true <->
  port = "" \/
  exists digits, port = ":" ++ digits /\
                 forallb isDigitChar (list_ascii_of_string digits) = true.
Proof.
  destruct port as [|c t]; cbn [validOptionalPort].
  - split; [now left | reflexivity].
  - destruct (Ascii.eqb c ":") eqn:E; cbn [negb].
    + apply Ascii.eqb_eq in E. subst c. rewrite allDigits_forallb. split.
      * intro H. right. now exists t.
      * intros [H|[digits [H D]]]; [discriminate|]. injection H as ->. exact D.
    + split; [discriminate|].
      intros [H|[digits [H D]]]; [discriminate|]. injection H as -> _.
      now rewrite Ascii.eqb_refl in E.
Qed.

Lemma validOptionalPort_iff_witness :
  validOptionalPort ":8080" = true /\
  (validOptionalPort ":" = true ->
   ":" = "" \/ exists digits, ":" = ":" ++ digits /\
                forallb isDigitChar (list_ascii_of_string digits) = true).
Proof.
  split.
  - apply (proj2 (validOptionalPort_iff ":8080")). right. now exists "8080".
  - exact (proj1 (validOptionalPort_iff ":")).
Defined.

Lemma lor_nibbles_sum (x y : N) :
  (x < 16)%N -> (y < 16)%N -> N.lor (N.shiftl x 4) y = (16 * x + y)%N.
Proof.
  intros Hx Hy.
  assert (L : N.land (N.shiftl x 4) y = 0%N).
  { apply N.bits_inj_0. intro n. rewrite N.land_spec.
    destruct (N.lt_ge_cases n 4) as [A|A].
    - now rewrite N.shiftl_spec_low.
    - destruct y as [|q]; [now rewrite N.bits_0, andb_false_r|].
      rewrite (N.bits_above_log2 (N.pos q) n), andb_false_r; [reflexivity|].
      apply N.log2_lt_pow2; [lia|].
      apply N.lt_le_trans with (2 ^ 4)%N; [exact Hy|].
      apply N.pow_le_mono_r; lia. }
  rewrite <- N.lxor_lor by exact L.
  rewrite <- N.add_nocarry_lxor by exact L.
  rewrite N.shiftl_mul_pow2. change (2 ^ 4)%N with 16%N. lia.
Qed.

(** X7: [ishex] accepts the twenty-two hex digits and no other character;
    [unhex] is below 16 on every character, gives each digit its value,
    upper and lower case alike; and the byte the decoder writes for an
    escape, [unhex(a) << 4 | unhex(b)], is [16 * unhex a + unhex b], below
    256, so that writing it as a byte loses nothing. *)
Theorem hex_digits (a b : ascii) :
  ishex a = memChar (charCode a) "0123456789abcdefABCDEF" /\
  (unhex a < 16)%N /\
  List.map unhex (list_ascii_of_string "0123456789abcdefABCDEF")
  = [0; 1; 2; 3; 4; 5; 6; 7; 8; 9; 10; 11; 12; 13; 14; 15; 10; 11; 12; 13; 14; 15]%N /\
  hexByte a b = (16 * unhex a + unhex b)%N /\
  (hexByte a b < 256)%N /\
  charCode (ascii_of_N (hexByte a b)) = hexByte a b.
Proof.
  pose proof (unhex_bound a) as Ha. pose proof (unhex_bound b) as Hb.
  assert (S : hexByte a b = (16 * unhex a + unhex b)%N)
    by (apply lor_nibbles_sum; assumption).
  split; [|split; [exact Ha|split; [reflexivity|split; [exact S|split]]]].
  - destruct a as [[] [] [] [] [] [] [] []]; reflexivity.
  - lia.
  - unfold charCode. apply N_ascii_embedding. lia.
Qed.

(** ** [unescape]: the two loops *)

Lemma encoding_eqb_eq (a b : encoding) : encoding_eqb a b = true <-> a = b.
Proof. destruct a, b; cbn; split; intro H; try reflexivity; discriminate. Qed.

Section UnescapeLoops.

Context {helpers : Helpers}.

(** One step of the first loop on an accepted string: an escape, a plus
    sign or another character. *)
Ltac scan_step H c t c1 c2 t' IH IH3 :=
  cbn [unescapeScan] in H;
  destruct (Ascii.eqb c "%") eqn:?;
  [ destruct t as [|c1 [|c2 t']]; try discriminate H;
    cbv beta iota zeta in H;
    destruct (negb (ishex c1) || negb (ishex c2)) eqn:?; [discriminate H|];
    destruct (encoding_eqb _ encodeHost && (unhex c1 <? 8)%N && _) eqn:?; [discriminate H|];
    destruct (encoding_eqb _ encodeZone && _) eqn:?; [discriminate H|]
  | destruct (Ascii.eqb c "+") eqn:?;
    [ | destruct (_ && shouldEscape (charCode c) _) eqn:?; [discriminate H|] ] ].

Lemma unescapeScan_mono (mode : encoding) (s : string) :
  forall n hp n' hp', unescapeScan mode s n hp = Ok (n', hp') -> n <= n'.
Proof.
  induction s as [|c t IH IH3] using string_ind3; intros n hp n' hp' H.
  - cbn in H. injection H as <- _. lia.
  - scan_step H c t c1 c2 t' IH IH3.
    + specialize (IH3 c1 c2 t' eq_refl _ _ _ _ H). lia.
    + exact (IH _ _ _ _ H).
    + exact (IH _ _ _ _ H).
Qed.

Lemma unescapeScan_plus_sticky (s : string) :
  forall n n' hp',
    unescapeScan encodeQueryComponent s n true = Ok (n', hp') -> hp' = true.
Proof.
  induction s as [|c t IH IH3] using string_ind3; intros n n' hp' H.
  - cbn in H. now injection H as _ <-.
  - scan_step H c t c1 c2 t' IH IH3.
    + exact (IH3 c1 c2 t' eq_refl _ _ _ H).
    + exact (IH _ _ _ H).
    + exact (IH _ _ _ H).
Qed.

(** When the first loop ends with no escape counted and [hasPlus] false,
    the second loop would rebuild the very same string. *)
Lemma unescapeScan_nothing_to_do (mode : encoding) (s : string) :
  forall n hp, unescapeScan mode s n hp = Ok (n, false) -> unescapeBuild mode s = s.
Proof.
  induction s as [|c t IH IH3] using string_ind3; intros n hp H.
  - reflexivity.
  - cbn [unescapeBuild].
    scan_step H c t c1 c2 t' IH IH3.
    + apply unescapeScan_mono in H. lia.
    + destruct (encoding_eqb mode encodeQueryComponent) eqn:Q.
      * apply encoding_eqb_eq in Q. subst mode.
        apply unescapeScan_plus_sticky in H. discriminate H.
      * match goal with E : Ascii.eqb c "+" = true |- _ => apply Ascii.eqb_eq in E; subst c end.
        f_equal. exact (IH _ _ H).
    + f_equal. exact (IH _ _ H).
Qed.

Lemma unescapeBuild_app (mode : encoding) (pre : string) :
  forall n hp r rest,
    unescapeScan mode pre n hp = Ok r ->
    unescapeBuild mode (pre ++ rest) = unescapeBuild mode pre ++ unescapeBuild mode rest.
Proof.
  induction pre as [|c t IH IH3] using string_ind3; intros n hp r rest H.
  - reflexivity.
  - change ((String c t) ++ rest) with (String c (t ++ rest)).
    cbn [unescapeBuild].
    scan_step H c t c1 c2 t' IH IH3.
    + change ((String c1 (String c2 t')) ++ rest) with (String c1 (String c2 (t' ++ rest))).
      cbn [append]. f_equal. exact (IH3 c1 c2 t' eq_refl _ _ _ rest H).
    + destruct (encoding_eqb mode encodeQueryComponent);
        cbn [append]; f_equal; exact (IH _ _ _ rest H).
    + cbn [append]. f_equal. exact (IH _ _ _ rest H).
Qed.

(** Whether the first loop accepts a string does not depend on the
    counters it starts from. *)
Lemma unescapeScan_accepts (mode : encoding) (s : string) :
  forall n hp r n2 hp2,
    unescapeScan mode s n hp = Ok r -> exists r2, unescapeScan mode s n2 hp2 = Ok r2.
Proof.
  induction s as [|c t IH IH3] using string_ind3; intros n hp r n2 hp2 H.
  - cbn. eauto.
  - scan_step H c t c1 c2 t' IH IH3; cbn [unescapeScan];
      repeat match goal with E : _ = _ |- _ => rewrite E end.
    + exact (IH3 c1 c2 t' eq_refl _ _ _ _ _ H).
    + exact (IH _ _ _ _ _ H).
    + exact (IH _ _ _ _ _ H).
Qed.

Lemma unescapeBuild_length (mode : encoding) (s : string) :
  (String.length (unescapeBuild mode s) <= String.length s)%nat.
Proof.
  induction s as [|c t IH IH3] using string_ind3; [cbn; lia|].
  cbn [unescapeBuild].
  destruct (Ascii.eqb c "%").
  - destruct t as [|c1 [|c2 t']]; cbn [String.length]; try lia.
    specialize (IH3 c1 c2 t' eq_refl). lia.
  - destruct (Ascii.eqb c "+"); [destruct (encoding_eqb _ _)|]; cbn [String.length]; lia.
Qed.

Lemma unescape_ok_build (mode : encoding) (s r : string) :
  unescape s mode = Ok r -> r = unescapeBuild mode s.
Proof.
  unfold unescape.
  destruct (unescapeScan mode s 0 false) as [[n hp]|e] eqn:E; [|discriminate].
  destruct ((n =? 0) && negb hp) eqn:F; intro H; injection H as <-; [|reflexivity].
  apply andb_prop in F as [F1 F2]. apply Z.eqb_eq in F1. subst n.
  destruct hp; [discriminate F2|].
  symmetry. exact (unescapeScan_nothing_to_do _ _ _ _ E).
Qed.

Lemma unescape_ok_iff_scan (mode : encoding) (s : string) :
  (exists r, unescape s mode = Ok r) <-> (exists q, unescapeScan mode s 0 false = Ok q).
Proof.
  unfold unescape. split.
  - intros [r H]. destruct (unescapeScan mode s 0 false) as [q|e]; [eauto|discriminate].
  - intros [[n hp] ->]. destruct ((n =? 0) && negb hp); eauto.
Qed.

(** X8: the shortcut of [unescape] changes nothing.  Whenever [unescape]
    succeeds, with or without the early [return s] taken when no escape
    and no decodable plus sign was counted, its result is what the second
    loop builds from [s]. *)
Theorem unescape_shortcut_is_invisible (mode : encoding) (s r : string) :
  unescape s mode = Ok r -> r = unescapeBuild mode s.
Proof. apply unescape_ok_build. Qed.

(** X9: decoding never lengthens: a successful [unescape] returns a string
    no longer than its input. *)
Theorem unescape_never_longer (mode : encoding) (s r : string) :
  unescape s mode = Ok r -> (String.length r <= String.length s)%nat.
Proof.
  intro H. apply unescape_ok_build in H. subst r. apply unescapeBuild_length.
Qed.

(** X10: decoding goes piece by piece: when [a] and [b] both decode in a
    mode, [a ++ b] decodes in that mode to the two results put
    together. *)
Theorem unescape_app (mode : encoding) (a b a' b' : string) :
  unescape a mode = Ok a' ->
  unescape b mode = Ok b' ->
  unescape (a ++ b) mode = Ok (a' ++ b').
Proof.
  intros Ha Hb.
  destruct (proj1 (unescape_ok_iff_scan mode a) (ex_intro _ _ Ha)) as [[na ha] Sa].
  destruct (proj1 (unescape_ok_iff_scan mode b) (ex_intro _ _ Hb)) as [qb Sb].
  destruct (unescapeScan_accepts mode b 0 false qb na ha Sb) as [q Sq].
  destruct (proj2 (unescape_ok_iff_scan mode (a ++ b))) as [r Hr].
  { exists q. now rewrite (unescapeScan_app mode a 0 false na ha b Sa). }
  rewrite Hr. f_equal.
  apply unescape_ok_build in Ha, Hb, Hr. subst a' b' r.
  exact (unescapeBuild_app mode a 0 false _ b Sa).
Qed.

End UnescapeLoops.

Lemma unescape_shortcut_is_invisible_witness :
  "a b" = unescapeBuild encodePath "a%20b" /\ "/plain" = unescapeBuild encodePath "/plain".
Proof.
  split.
  - exact (unescape_shortcut_is_invisible (helpers := Rfc3986.helpers)
             encodePath "a%20b" "a b" eq_refl).
  - exact (unescape_shortcut_is_invisible (helpers := Rfc3986.helpers)
             encodePath "/plain" "/plain" eq_refl).
Defined.

Lemma unescape_never_longer_witness : (String.length "a b" <= String.length "a%20b")%nat.
Proof.
  exact (unescape_never_longer (helpers := Rfc3986.helpers) encodePath "a%20b" "a b" eq_refl).
Defined.

Lemma unescape_app_witness :
  unescape (helpers := Rfc3986.helpers) ("a%20" ++ "b+c") encodeQueryComponent
  = Ok ("a " ++ "b c").
Proof.
  exact (unescape_app (helpers := Rfc3986.helpers) encodeQueryComponent
           "a%20" "b+c" "a " "b c" eq_refl eq_refl).
Defined.

(** ** [unescape]: strings without escape, and malformed escapes *)

Lemma no_percent_cons (c : ascii) (t : string) :
  strings.contains (String c t) "%" = false ->
  Ascii.eqb c "%" = false /\ strings.contains t "%" = false.
Proof.
  intro H. apply contains_false in H. cbn [Js.indexOfNat] in H.
  rewrite prefix_single, Ascii.eqb_sym in H.
  destruct (Ascii.eqb c "%"); [discriminate|]. split; [reflexivity|].
  apply contains_false. now destruct (Js.indexOfNat t "%").
Qed.

Section UnescapePlain.

Context {helpers : Helpers}.

Lemma unescapeScan_no_percent (mode : encoding) (s : string) :
  mode <> encodeHost -> mode <> encodeZone ->
  strings.contains s "%" = false ->
  forall n hp, exists hp', unescapeScan mode s n hp = Ok (n, hp').
Proof.
  intros NH NZ.
  assert (EH : encoding_eqb mode encodeHost = false) by now destruct mode.
  assert (EZ : encoding_eqb mode encodeZone = false) by now destruct mode.
  induction s as [|c t IH]; intros N n hp.
  - cbn. eauto.
  - apply no_percent_cons in N as [E N]. cbn [unescapeScan]. rewrite E, EH, EZ.
    cbn [orb andb]. destruct (Ascii.eqb c "+"); now apply IH.
Qed.

Lemma unescapeBuild_no_percent (mode : encoding) (s : string) :
  strings.contains s "%" = false ->
  unescapeBuild mode s
  = if encoding_eqb mode encodeQueryComponent then plusToSpace s else s.
Proof.
  induction s as [|c t IH]; intro N.
  - now destruct (encoding_eqb _ _).
  - apply no_percent_cons in N as [E N]. cbn [unescapeBuild plusToSpace]. rewrite E.
    rewrite (IH N).
    destruct (Ascii.eqb c "+") eqn:P.
    + apply Ascii.eqb_eq in P. subst c. now destruct (encoding_eqb _ _).
    + now destruct (encoding_eqb _ _).
Qed.

(** X11: a string without percent sign.  Outside Host and Zone context it
    always decodes: to itself, or in QueryComponent context to itself with
    every plus sign turned into a space.  In every context but
    QueryComponent, Host and Zone included, it is returned unchanged
    whenever decoding succeeds. *)
Theorem unescape_without_percent (mode : encoding) (s : string) :
  strings.contains s "%" = false ->
  (mode <> encodeHost -> mode <> encodeZone ->
   unescape s mode
   = Ok (if encoding_eqb mode encodeQueryComponent then plusToSpace s else s)) /\
  (mode <> encodeQueryComponent -> forall r, unescape s mode = Ok r -> r = s).
Proof.
  intro N. split.
  - intros NH NZ.
    destruct (unescapeScan_no_percent mode s NH NZ N 0 false) as [hp S].
    destruct (proj2 (unescape_ok_iff_scan mode s) (ex_intro _ _ S)) as [r H].
    rewrite H. f_equal. apply unescape_ok_build in H. subst r.
    now apply unescapeBuild_no_percent.
  - intros NQ r H. apply unescape_ok_build in H. subst r.
    rewrite (unescapeBuild_no_percent mode s N). now destruct mode.
Qed.

Lemma unescapeScan_malformed (mode : encoding) (s : string) :
  mode <> encodeHost -> mode <> encodeZone ->
  forall n hp e,
    unescapeScan mode s n hp = Err e ->
    exists pre tail,
      s = pre ++ String "%" tail /\ malformedAfterPercent tail /\
      e = EscapeError (Js.take 3 (String "%" tail)).
Proof.
  intros NH NZ.
  assert (EH : encoding_eqb mode encodeHost = false) by now destruct mode.
  assert (EZ : encoding_eqb mode encodeZone = false) by now destruct mode.
  induction s as [|c t IH IH3] using string_ind3; intros n hp e H.
  - discriminate H.
  - cbn [unescapeScan] in H. rewrite EH, EZ in H. cbn [andb orb] in H.
    destruct (Ascii.eqb c "%") eqn:P.
    + apply Ascii.eqb_eq in P. subst c.
      destruct t as [|c1 [|c2 t']].
      * injection H as <-. exists "", "". now repeat split.
      * injection H as <-. exists "", (String c1 ""). now repeat split.
      * destruct (negb (ishex c1) || negb (ishex c2)) eqn:M.
        -- injection H as <-. exists "", (String c1 (String c2 t')).
           split; [reflexivity|]. split; [|reflexivity].
           cbn. now destruct (ishex c1), (ishex c2).
        -- destruct (IH3 c1 c2 t' eq_refl _ _ _ H) as [pre [tail [E [M' R]]]].
           exists (String "%" (String c1 (String c2 pre))), tail.
           split; [cbn; now rewrite E | now split].
    + assert (R : exists pre tail,
                 t = pre ++ String "%" tail /\ malformedAfterPercent tail /\
                 e = EscapeError (Js.take 3 (String "%" tail))).
      { destruct (Ascii.eqb c "+"); exact (IH _ _ _ H). }
      destruct R as [pre [tail [E [M R]]]].
      exists (String c pre), tail. split; [cbn; now rewrite E | now split].
Qed.

(** X12: outside Host and Zone context [unescape] fails on malformed
    escapes only.  A failure means that [s] holds a percent sign followed
    by fewer than two characters or by two characters that are not both
    hex digits, and the error message is that percent sign with the one or
    two characters after it. *)
Theorem unescape_fails_on_malformed_escape_only (mode : encoding) (s : string) (e : error) :
  mode <> encodeHost -> mode <> encodeZone ->
  unescape s mode = Err e ->
  exists pre tail,
    s = pre ++ String "%" tail /\ malformedAfterPercent tail /\
    e = EscapeError (Js.take 3 (String "%" tail)).
Proof.
  intros NH NZ H. unfold unescape in H.
  destruct (unescapeScan mode s 0 false) as [[n hp]|e'] eqn:E.
  - destruct ((n =? 0) && negb hp); discriminate.
  - injection H as <-. exact (unescapeScan_malformed mode s NH NZ _ _ _ E).
Qed.

End UnescapePlain.

Lemma unescape_without_percent_witness :
  unescape (helpers := Rfc3986.helpers) "a+b/c" encodeQueryComponent = Ok "a b/c" /\
  (forall r, unescape (helpers := Rfc3986.helpers) "example.com:80" encodeHost = Ok r ->
             r = "example.com:80").
Proof.
  split.
  - exact (proj1 (unescape_without_percent (helpers := Rfc3986.helpers)
                    encodeQueryComponent "a+b/c" eq_refl)
             ltac:(discriminate) ltac:(discriminate)).
  - exact (proj2 (unescape_without_percent (helpers := Rfc3986.helpers)
                    encodeHost "example.com:80" eq_refl) ltac:(discriminate)).
Defined.

Lemma unescape_fails_on_malformed_escape_only_witness :
  exists pre tail,
    "/a%2" = pre ++ String "%" tail /\ malformedAfterPercent tail /\
    EscapeError "%2" = EscapeError (Js.take 3 (String "%" tail)).
Proof.
  exact (unescape_fails_on_malformed_escape_only (helpers := Rfc3986.helpers)
           encodePath "/a%2" (EscapeError "%2")
           ltac:(discriminate) ltac:(discriminate) eq_refl).
Defined.

(** ** [parseHost] and [parseAuthority]: the other branches *)

Lemma take_no_zone (s : string) (k : nat) :
  strings.contains s "%" = false -> Js.indexOfNat (Js.take k s) "%25" = None.
Proof.
  revert k. induction s as [|c t IH]; intros k N.
  - now destruct k.
  - destruct k as [|k]; [reflexivity|].
    apply no_percent_cons in N as [E N].
    cbn [Js.take Js.indexOfNat]. rewrite prefix_cons, Ascii.eqb_sym, E. cbn [andb].
    now rewrite (IH k N).
Qed.

Section HostBranches.

Context {helpers : Helpers}.

Lemma unescape_no_percent_same (mode : encoding) (s r : string) :
  strings.contains s "%" = false -> mode <> encodeQueryComponent ->
  unescape s mode = Ok r -> r = s.
Proof.
  intros N NQ H. apply unescape_ok_build in H. subst r.
  rewrite (unescapeBuild_no_percent mode s N). now destruct mode.
Qed.

(** X13: a host that does not start with an opening bracket.  Without any
    colon it is decoded in Host context as it stands.  Otherwise, written
    as [a ++ ":" ++ p] with no colon in [p] (the split at the LAST colon),
    it is decoded whole, port included, when [p] holds decimal digits only
    (none included), and refused with the "invalid port" error naming
    [":" ++ p] when it does not. *)
Theorem parseHost_without_bracket :
  (forall host,
      strings.hasPrefix host "[" = false ->
      strings.contains host ":" = false ->
      parseHost host = unescape host encodeHost) /\
  (forall a p,
      strings.hasPrefix (a ++ ":" ++ p) "[" = false ->
      strings.contains p ":" = false ->
      parseHost (a ++ ":" ++ p)
      = if forallb isDigitChar (list_ascii_of_string p)
        then unescape (a ++ ":" ++ p) encodeHost
        else Err (Errorf "invalid port %q after host" (":" ++ p))).
Proof.
  split.
  - intros host B N. unfold parseHost. rewrite B, (lastIndexOf_none _ _ N). reflexivity.
  - intros a p B N. unfold parseHost. rewrite B.
    change (":" ++ p) with (String ":" p).
    rewrite (lastIndexOf_last ":" a p N).
    pose proof (len_nonneg a) as L.
    destruct (Js.len a =? -1) eqn:E; [apply Z.eqb_eq in E; lia|]. cbn [negb].
    rewrite sliceFrom_app. cbn [validOptionalPort Ascii.eqb Bool.eqb negb].
    rewrite allDigits_forallb.
    now destruct (forallb isDigitChar (list_ascii_of_string p)).
Qed.

(** X14: a host text without percent sign is never altered: when
    [parseHost] succeeds on it, with or without brackets and port, the
    result is the text itself. *)
Theorem parseHost_without_percent (host r : string) :
  strings.contains host "%" = false ->
  parseHost host = Ok r -> r = host.
Proof.
  intros N. unfold parseHost.
  assert (U : unescape host encodeHost = Ok r -> r = host).
  { apply unescape_no_percent_same; [exact N | discriminate]. }
  destruct (strings.hasPrefix host "[").
  - unfold Js.lastIndexOf at 1 3 4 5.
    destruct (Js.lastIndexOfNat host "]") as [k|]; [|discriminate].
    destruct (Z.of_nat k <? 0); [discriminate|].
    destruct (negb (validOptionalPort _)); [discriminate|].
    rewrite slice_0_take. unfold Js.indexOf. rewrite (take_no_zone host k N).
    exact U.
  - destruct (negb (Js.lastIndexOf host ":" =? -1)); [|exact U].
    destruct (negb (validOptionalPort _)); [discriminate | exact U].
Qed.

(** X15: the userinfo before the last at sign, once the host after it is
    parsed.  A userinfo that [validUserinfo] refuses gives the "invalid
    userinfo" error; an accepted userinfo without colon is decoded whole
    in UserPassword context and becomes a user name with no password. *)
Theorem parseAuthority_userinfo (userinfo hostport host : string) :
  strings.contains hostport "@" = false ->
  parseHost hostport = Ok host ->
  (validUserinfo userinfo = false ->
   parseAuthority (userinfo ++ "@" ++ hostport)
   = Err (ErrorsNew "net/url: invalid userinfo")) /\
  (validUserinfo userinfo = true ->
   strings.contains userinfo ":" = false ->
   parseAuthority (userinfo ++ "@" ++ hostport)
   = (u <- unescape userinfo encodeUserPassword ;; Ok (Some (User u), host))).
Proof.
  intros N H. rewrite (parseAuthority_at userinfo hostport N), H. cbn [bind].
  split.
  - now intros ->.
  - now intros -> ->.
Qed.

Lemma contains_lastIndexOf (s sep : string) :
  strings.contains s sep = (Js.lastIndexOf s sep >=? 0).
Proof.
  destruct (strings.contains s sep) eqn:C.
  - unfold Js.lastIndexOf. destruct (Js.lastIndexOfNat s sep) as [k|] eqn:E.
    + symmetry. rewrite Z.geb_leb. apply Z.leb_le. lia.
    + apply indexOfNat_none_last, contains_false in E. congruence.
  - now rewrite (lastIndexOf_none _ _ C).
Qed.

(** X16: [parseAuthority] returns a userinfo exactly when the authority
    holds an at sign: never one without, always one with, be it with an
    empty name. *)
Theorem parseAuthority_userinfo_iff_at (authority host : string) (user : option Userinfo) :
  parseAuthority authority = Ok (user, host) ->
  (user = None <-> strings.contains authority "@" = false).
Proof.
  rewrite (contains_lastIndexOf authority "@"). unfold parseAuthority.
  destruct (Js.lastIndexOf authority "@" <? 0) eqn:E.
  - destruct (parseHost authority); cbn [bind]; [|discriminate].
    intro H. injection H as <- _. split; [|reflexivity]. intros _.
    apply Z.ltb_lt in E. rewrite Z.geb_leb. apply Z.leb_gt. lia.
  - destruct (parseHost _); cbn [bind]; [|discriminate].
    assert (G : (Js.lastIndexOf authority "@" >=? 0) = true).
    { apply Z.ltb_ge in E. rewrite Z.geb_leb. now apply Z.leb_le. }
    rewrite G.
    destruct (negb (validUserinfo _)); [discriminate|].
    destruct (negb (strings.contains _ ":")).
    + destruct (unescape _ encodeUserPassword); cbn [bind]; [|discriminate].
      intro H. injection H as <- _. split; discriminate.
    + cbv zeta.
      destruct (unescape (strings.before _) encodeUserPassword); cbn [bind]; [|discriminate].
      destruct (unescape (strings.after _) encodeUserPassword); cbn [bind]; [|discriminate].
      intro H. injection H as <- _. split; discriminate.
Qed.

End HostBranches.

Lemma parseHost_without_bracket_witness :
  parseHost (helpers := Rfc3986.helpers) "example.com" = Ok "example.com" /\
  parseHost (helpers := Rfc3986.helpers) "example.com:80" = Ok "example.com:80" /\
  parseHost (helpers := Rfc3986.helpers) "example.com:8a"
  = Err (Errorf "invalid port %q after host" ":8a").
Proof.
  pose proof (parseHost_without_bracket (helpers := Rfc3986.helpers)) as [A B].
  split; [|split].
  - exact (A "example.com" eq_refl eq_refl).
  - exact (B "example.com" "80" eq_refl eq_refl).
  - exact (B "example.com" "8a" eq_refl eq_refl).
Defined.

Lemma parseHost_without_percent_witness : "[::1]:80" = "[::1]:80".
Proof.
  exact (parseHost_without_percent (helpers := Rfc3986.helpers)
           "[::1]:80" "[::1]:80" eq_refl eq_refl).
Defined.

Lemma parseAuthority_userinfo_witness :
  parseAuthority (helpers := Rfc3986.helpers) "us%65r@example.com"
  = Ok (Some (User "user"), "example.com") /\
  parseAuthority (helpers := Rfc3986.helpers) "us er@example.com"
  = Err (ErrorsNew "net/url: invalid userinfo").
Proof.
  split.
  - exact (proj2 (parseAuthority_userinfo (helpers := Rfc3986.helpers)
                    "us%65r" "example.com" "example.com" eq_refl eq_refl)
             eq_refl eq_refl).
  - exact (proj1 (parseAuthority_userinfo (helpers := Rfc3986.helpers)
                    "us er" "example.com" "example.com" eq_refl eq_refl) eq_refl).
Defined.

Lemma parseAuthority_userinfo_iff_at_witness :
  (@None Userinfo = None <-> strings.contains "example.com" "@" = false) /\
  (Some (User "") = None <-> strings.contains "@example.com" "@" = false).
Proof.
  split.
  - exact (parseAuthority_userinfo_iff_at (helpers := Rfc3986.helpers)
             "example.com" "example.com" None eq_refl).
  - exact (parseAuthority_userinfo_iff_at (helpers := Rfc3986.helpers)
             "@example.com" "example.com" (Some (User "")) eq_refl).
Defined.

(** ** [parse] and [Parse]: what they never do *)

Lemma hasPrefix_slash (s : string) :
  strings.hasPrefix s "/" = match s with String c _ => Ascii.eqb c "/" | "" => false end.
Proof.
  unfold strings.hasPrefix. change (Js.len "/") with (Z.of_nat 1).
  rewrite slice_0_take. destruct s as [|c t]; [reflexivity|].
  assert (L : (Js.len (String c t) >=? Z.of_nat 1) = true).
  { rewrite Z.geb_leb. apply Z.leb_le. unfold Js.len. cbn [String.length]. lia. }
  rewrite L. cbn. now destruct (Ascii.eqb c "/").
Qed.

Lemma startsWithSlash_hasPrefix (s : string) :
  startsWithSlash s = strings.hasPrefix s "/".
Proof.
  rewrite hasPrefix_slash. unfold startsWithSlash.
  change 1 with (Z.of_nat 1). rewrite slice_0_take.
  destruct s as [|c t]; [reflexivity|].
  assert (L : (Js.len (String c t) >? 0) = true).
  { rewrite Z.gtb_ltb. apply Z.ltb_lt. unfold Js.len. cbn [String.length]. lia. }
  rewrite L. cbn. now destruct (Ascii.eqb c "/").
Qed.

(** The query split keeps the leading slash, and brings none. *)
Lemma splitQuery_keeps_slash (url : URL.t) (rawURL : string) :
  strings.hasPrefix (snd (splitQuery url rawURL)) "/" = strings.hasPrefix rawURL "/".
Proof.
  unfold splitQuery. rewrite !hasPrefix_slash.
  destruct (Js.endsWith rawURL "?" && (strings.count rawURL "?" =? 1)) eqn:C; cbn [snd].
  - apply andb_prop in C as [C _]. apply endsWith_strip in C.
    destruct (Js.slice rawURL 0 (Js.len rawURL - 1)) as [|c r]; rewrite C; reflexivity.
  - destruct rawURL as [|c t]; [reflexivity|].
    rewrite before_cut_cons. destruct (Ascii.eqb "?" c) eqn:Q; [|reflexivity].
    apply Ascii.eqb_eq in Q. now subst c.
Qed.

Section ParseShape.

Context {helpers : Helpers}.

Lemma setPath_other_fields (url u : URL.t) (p : string) :
  setPath url p = Ok u ->
  URL.Opaque u = URL.Opaque url /\ URL.OmitHost u = URL.OmitHost url /\
  URL.Fragment u = URL.Fragment url /\ URL.RawFragment u = URL.RawFragment url.
Proof.
  unfold setPath. destruct (unescape p encodePath) as [path|e]; cbn [bind]; [|discriminate].
  destruct (escape path encodePath =? p)%string; intro H; injection H as <-;
    now repeat split.
Qed.

(** X17: as [getScheme] never finds a scheme, a result of [parse] never
    has a scheme text, never is opaque and never has [OmitHost] set; nor
    does [parse] touch the fragment fields. *)
Theorem parse_never_opaque (rawURL : string) (viaRequest : bool) (u : URL.t) :
  parse rawURL viaRequest = Ok u ->
  URL.text (URL.Scheme u) = "" /\ URL.Opaque u = None /\ URL.OmitHost u = None /\
  URL.Fragment u = None /\ URL.RawFragment u = None.
Proof.
  unfold parse.
  destruct (stringContainsCTLByte rawURL); [discriminate|].
  destruct ((rawURL =? "")%string && viaRequest); [discriminate|].
  destruct (rawURL =? "*")%string.
  - intro H. injection H as <-. now repeat split.
  - rewrite getScheme_no_scheme. cbn [Scheme.Scheme Scheme.Path Js.toLowerCase].
    set (q := splitQuery _ rawURL).
    assert (Q : URL.Scheme (fst q) = Some "" /\ URL.Opaque (fst q) = None /\
                URL.OmitHost (fst q) = None /\ URL.Fragment (fst q) = None /\
                URL.RawFragment (fst q) = None).
    { subst q. unfold splitQuery. now destruct (_ && _). }
    destruct Q as [QS [QO [QH [QF QR]]]].
    intro H.
    destruct (parseAfterQuery_fields _ _ _ _ H) as [[_ [_ S]] _].
    rewrite S, QS. split; [reflexivity|].
    unfold parseAfterQuery, parseHier in H. rewrite QS in H.
    cbn [URL.differs String.eqb negb orb andb] in H.
    assert (P : forall url p, setPath url p = Ok u -> url = fst q ->
                  URL.Opaque u = None /\ URL.OmitHost u = None /\
                  URL.Fragment u = None /\ URL.RawFragment u = None).
    { intros url p HP ->. apply setPath_other_fields in HP as [A [B [C D]]].
      now rewrite A, B, C, D. }
    repeat match type of H with
           | (if ?b then _ else _) = _ => destruct b
           | match ?r with Ok _ => _ | Err _ => _ end = _ => destruct r
           end;
      try discriminate H; exact (P _ _ H eq_refl).
Qed.

(** X18: [parse] with viaRequest true accepts only "*" and inputs that
    start with a slash.  Any other input without control character gets
    EMPTY_URL when it is empty and INVALID_REQUEST_URI when it is not.
    And on an input that starts with a slash no authority is parsed, even
    after two slashes: the whole remainder left by the query split is the
    path. *)
Theorem parse_via_request (rawURL : string) :
  (forall u, parse rawURL true = Ok u ->
             rawURL = "*" \/ strings.hasPrefix rawURL "/" = true) /\
  (stringContainsCTLByte rawURL = false ->
   rawURL <> "*" ->
   strings.hasPrefix rawURL "/" = false ->
   parse rawURL true = Err (if (rawURL =? "")%string then EMPTY_URL else INVALID_REQUEST_URI)) /\
  (stringContainsCTLByte rawURL = false ->
   strings.hasPrefix rawURL "/" = true ->
   parse rawURL true
   = let q := splitQuery (URL.setScheme URL.empty "") rawURL in setPath (fst q) (snd q)).
Proof.
  assert (S : forall url, URL.Scheme url = Some "" ->
                          URL.Scheme (fst (splitQuery url rawURL)) = Some "").
  { intros url H. unfold splitQuery. now destruct (_ && _). }
  assert (G : forall url, URL.Scheme url = Some "" ->
                parseAfterQuery (fst (splitQuery url rawURL)) (snd (splitQuery url rawURL)) true
                = if strings.hasPrefix rawURL "/"
                  then setPath (fst (splitQuery url rawURL)) (snd (splitQuery url rawURL))
                  else Err INVALID_REQUEST_URI).
  { intros url H. unfold parseAfterQuery, parseHier.
    rewrite startsWithSlash_hasPrefix, splitQuery_keeps_slash, (S url H).
    cbn [URL.differs String.eqb negb orb andb].
    now destruct (strings.hasPrefix rawURL "/"). }
  split; [|split].
  - intros u. unfold parse.
    destruct (stringContainsCTLByte rawURL); [discriminate|].
    destruct ((rawURL =? "")%string && true); [discriminate|].
    destruct (rawURL =? "*")%string eqn:Star; [apply String.eqb_eq in Star; now left|].
    rewrite getScheme_no_scheme. cbn [Scheme.Scheme Scheme.Path Js.toLowerCase].
    rewrite (G (URL.setScheme URL.empty "") eq_refl).
    destruct (strings.hasPrefix rawURL "/"); [now right | discriminate].
  - intros C NS NP. unfold parse. rewrite C, andb_true_r.
    destruct (rawURL =? "")%string; [reflexivity|].
    apply String.eqb_neq in NS. rewrite NS.
    rewrite getScheme_no_scheme. cbn [Scheme.Scheme Scheme.Path Js.toLowerCase].
    now rewrite (G (URL.setScheme URL.empty "") eq_refl), NP.
  - intros C P. unfold parse. rewrite C, andb_true_r.
    assert (E : (rawURL =? "")%string = false).
    { apply String.eqb_neq. intros ->. discriminate P. }
    assert (NS : (rawURL =? "*")%string = false).
    { apply String.eqb_neq. intros ->. discriminate P. }
    rewrite E, NS, getScheme_no_scheme. cbn [Scheme.Scheme Scheme.Path Js.toLowerCase].
    now rewrite (G (URL.setScheme URL.empty "") eq_refl), P.
Qed.

(** X19: [Parse] on an input cut at its first "#".  With no "#" at all,
    [Parse a] is [parse a false], an error being wrapped with the
    operation "parse" and the text [a].  An empty fragment is ignored:
    [Parse (a ++ "#")] is [Parse a].  And an error of the part before the
    "#" wins over the fragment, and names that part only. *)
Theorem Parse_cuts_fragment (a : string) :
  strings.contains a "#" = false ->
  Parse a = match parse a false with
            | Err e => Err (OpError "parse" a e)
            | Ok u => Ok u
            end /\
  Parse (a ++ "#") = Parse a /\
  (forall f e, parse a false = Err e ->
               Parse (a ++ "#" ++ f) = Err (OpError "parse" a e)).
Proof.
  intro N.
  assert (C0 : strings.cut a "#" = strings.mkCut a "" false).
  { unfold strings.cut, Js.indexOf. apply contains_false in N. now rewrite N. }
  assert (C1 : forall f, strings.cut (a ++ "#" ++ f) "#" = strings.mkCut a f true).
  { intro f. exact (cut_first "#" a f N). }
  split; [|split].
  - unfold Parse. rewrite C0. cbn. now destruct (parse a false).
  - unfold Parse. rewrite C0. change (a ++ "#") with (a ++ "#" ++ ""). rewrite C1. reflexivity.
  - intros f e H. unfold Parse. rewrite C1. cbn [strings.before]. now rewrite H.
Qed.

End ParseShape.

Lemma parse_never_opaque_witness :
  exists u, parse (helpers := Rfc3986.helpers) "/a/b" false = Ok u /\ URL.Opaque u = None.
Proof.
  eexists. split; [reflexivity|].
  exact (proj1 (proj2 (parse_never_opaque (helpers := Rfc3986.helpers)
                         "/a/b" false _ eq_refl))).
Defined.

Lemma parse_via_request_witness :
  parse (helpers := Rfc3986.helpers) "a/b" true = Err INVALID_REQUEST_URI /\
  (exists u, parse (helpers := Rfc3986.helpers) "//host/p" true = Ok u /\
             URL.Path u = Some "//host/p") /\
  ("/x" = "*" \/ strings.hasPrefix "/x" "/" = true).
Proof.
  split; [|split].
  - exact (proj1 (proj2 (parse_via_request (helpers := Rfc3986.helpers) "a/b"))
             eq_refl ltac:(discriminate) eq_refl).
  - eexists. split.
    + exact (proj2 (proj2 (parse_via_request (helpers := Rfc3986.helpers) "//host/p"))
               eq_refl eq_refl).
    + reflexivity.
  - exact (proj1 (parse_via_request (helpers := Rfc3986.helpers) "/x") _ eq_refl).
Defined.

Lemma Parse_cuts_fragment_witness :
  Parse (helpers := Rfc3986.helpers) ("/a" ++ "#") = Parse (helpers := Rfc3986.helpers) "/a" /\
  Parse (helpers := Rfc3986.helpers) ("a:b" ++ "#" ++ "frag")
  = Err (OpError "parse" "a:b" PATH_UNEXPECTED_COLON).
Proof.
  split.
  - exact (proj1 (proj2 (Parse_cuts_fragment (helpers := Rfc3986.helpers) "/a" eq_refl))).
  - exact (proj2 (proj2 (Parse_cuts_fragment (helpers := Rfc3986.helpers) "a:b" eq_refl))
             "frag" _ eq_refl).
Defined.

(** ** [parse]: authority and path, and the two files *)

Lemma hasPrefix_app (p t : string) : strings.hasPrefix (p ++ t) p = true.
Proof.
  unfold strings.hasPrefix. rewrite slice_prefix, String.eqb_refl, len_app.
  pose proof (len_nonneg t). rewrite andb_true_r, Z.geb_leb. apply Z.leb_le. lia.
Qed.

Section AuthorityAndPath.

Context {helpers : Helpers}.

(** X20: how [parse] with viaRequest false reads "//authority/path".  For
    an input [("//" ++ authority) ++ path] without control character and
    without question mark, where [authority] holds no slash, [path] is
    empty or starts with a slash and the whole does not start with three
    slashes: the authority text goes to [parseAuthority], whose error is
    the result, and the path is everything from the first slash after
    the two leading ones. *)
Theorem parse_authority_then_path (authority path : string) :
  stringContainsCTLByte (("//" ++ authority) ++ path) = false ->
  strings.contains (("//" ++ authority) ++ path) "?" = false ->
  strings.contains authority "/" = false ->
  path = "" \/ strings.hasPrefix path "/" = true ->
  strings.hasPrefix (("//" ++ authority) ++ path) "///" = false ->
  parse (("//" ++ authority) ++ path) false
  = match parseAuthority authority with
    | Err e => Err e
    | Ok _ => setPath (URL.setRawQuery (URL.setScheme URL.empty "") "") path
    end.
Proof.
  intros C NQ NS P T. unfold parse. rewrite C. cbn [andb].
  replace ((("//" ++ authority) ++ path =? "")%string) with false by reflexivity.
  cbn [andb]. rewrite getScheme_no_scheme. cbn [Scheme.Scheme Scheme.Path Js.toLowerCase].
  rewrite (splitQuery_no_query _ _ NQ). cbn [fst snd].
  assert (NStar : ((("//" ++ authority) ++ path) =? "*")%string = false) by reflexivity.
  rewrite NStar.
  unfold parseAfterQuery. rewrite startsWithSlash_hasPrefix, hasPrefix_slash.
  cbn [append Ascii.eqb Bool.eqb negb].
  unfold parseHier. cbn [URL.differs URL.Scheme URL.setRawQuery URL.setScheme String.eqb negb orb].
  change (String "/" (String "/" (authority ++ path))) with (("//" ++ authority) ++ path).
  rewrite T. cbn [negb andb].
  rewrite app_assoc_str, hasPrefix_app.
  change 2 with (Js.len "//"). rewrite sliceFrom_app.
  destruct P as [->|P].
  - rewrite app_empty_r.
    assert (I : Js.indexOf authority "/" = -1).
    { unfold Js.indexOf. apply contains_false in NS. now rewrite NS. }
    rewrite I. reflexivity.
  - rewrite hasPrefix_slash in P. destruct path as [|c p]; [discriminate|].
    apply Ascii.eqb_eq in P. subst c.
    rewrite (indexOf_first "/" authority p NS).
    pose proof (len_nonneg authority) as L.
    destruct (Js.len authority >=? 0) eqn:E;
      [|rewrite Z.geb_leb in E; apply Z.leb_gt in E; lia].
    cbn [fst snd]. now rewrite slice_prefix, sliceFrom_app.
Qed.

(** X21: when [parse] with viaRequest false parses no authority.  On an
    input without control character, other than "*", whose remainder
    after the query split passes the colon test of the first segment and
    does not start with two slashes, or starts with three, the whole
    remainder is the path. *)
Theorem parse_path_only (rawURL : string) :
  let q := splitQuery (URL.setScheme URL.empty "") rawURL in
  stringContainsCTLByte rawURL = false ->
  rawURL <> "*" ->
  strings.hasPrefix (snd q) "/" = true \/
  Js.indexOf (strings.before (strings.cut (snd q) "/")) ":" = -1 ->
  strings.hasPrefix (snd q) "//" = false \/ strings.hasPrefix (snd q) "///" = true ->
  parse rawURL false = setPath (fst q) (snd q).
Proof.
  intros q C NS A B. unfold parse. rewrite C, andb_false_r.
  apply String.eqb_neq in NS. rewrite NS, getScheme_no_scheme.
  cbn [Scheme.Scheme Scheme.Path Js.toLowerCase]. fold q.
  assert (S : URL.Scheme (fst q) = Some "").
  { subst q. unfold splitQuery. now destruct (_ && _). }
  assert (H : parseHier (fst q) (snd q) false = setPath (fst q) (snd q)).
  { unfold parseHier. rewrite S. cbn [URL.differs String.eqb negb orb andb].
    destruct B as [B|B]; rewrite B.
    - now rewrite andb_false_r.
    - reflexivity. }
  unfold parseAfterQuery. rewrite S, startsWithSlash_hasPrefix.
  cbn [URL.differs String.eqb negb].
  destruct A as [A|A]; rewrite A; cbn [negb]; [exact H|].
  now destruct (strings.hasPrefix (snd q) "/").
Qed.

Lemma clearAuthority_id (u : URL.t) :
  URL.Host u = None -> URL.User u = None -> clearAuthority u = u.
Proof. destruct u. cbn. now intros -> ->. Qed.

Lemma setPath_clearAuthority (u : URL.t) (p : string) :
  mapResult clearAuthority (setPath u p) = setPath (clearAuthority u) p.
Proof.
  unfold setPath. destruct (unescape p encodePath) as [path|e]; cbn [bind]; [|reflexivity].
  now destruct (escape path encodePath =? p)%string.
Qed.

Lemma setFragment_clearAuthority (u : URL.t) (f : string) :
  mapResult clearAuthority (setFragment u f) = setFragment (clearAuthority u) f.
Proof.
  unfold setFragment. destruct (unescape f encodeFragment) as [frag|e]; cbn [bind];
    [|reflexivity].
  now destruct (escape frag encodeFragment =? f)%string.
Qed.

Lemma parseHier_part000 (url : URL.t) (rest : string) (viaRequest : bool) :
  URL.Host url = None -> URL.User url = None ->
  parseHier url rest viaRequest
  = mapResult clearAuthority (Part000.parseHier parseAuthority setPath url rest viaRequest).
Proof.
  intros H U. unfold parseHier, Part000.parseHier.
  assert (I : forall w p, clearAuthority w = w ->
                          setPath w p = mapResult clearAuthority (setPath w p)).
  { intros w p E. now rewrite setPath_clearAuthority, E. }
  destruct (_ && strings.hasPrefix rest "//").
  - destruct (parseAuthority _) as [[user host]|e]; [|reflexivity].
    rewrite setPath_clearAuthority. f_equal.
    destruct url. cbn in *. now subst.
  - destruct (_ && strings.hasPrefix rest "/"); apply I; apply clearAuthority_id;
      assumption.
Qed.

(** X22: the two files differ by the authority fields and by nothing
    else.  On every input and flag, the [parse] of index.ts returns what
    the [parse] of part_000 returns, the same error or the same URL with
    [Host] and [User] left out; and so do the two [Parse]. *)
Theorem parse_index_is_part000_without_authority (rawURL : string) (viaRequest : bool) :
  parse rawURL viaRequest = mapResult clearAuthority (parse000 rawURL viaRequest) /\
  Parse rawURL
  = mapResult clearAuthority (Part000.Parse parseAuthority setPath setFragment rawURL).
Proof.
  assert (P : forall raw v,
             parse raw v = mapResult clearAuthority (parse000 raw v)).
  { intros raw v. unfold parse000, parse, Part000.parse.
    pose proof (stringContainsCTLByte_part000 raw) as E1.
    pose proof (getScheme_part000 raw) as E2.
    destruct (stringContainsCTLByte raw); rewrite E1; [reflexivity|].
    destruct ((raw =? "")%string && v); [reflexivity|].
    destruct (raw =? "*")%string; [reflexivity|].
    destruct (getScheme raw) as [sch|e]; rewrite E2; [|reflexivity].
    set (q := splitQuery _ (Scheme.Path sch)).
    assert (Q : URL.Host (fst q) = None /\ URL.User (fst q) = None).
    { subst q. unfold splitQuery. now destruct (_ && _). }
    destruct Q as [QH QU].
    unfold parseAfterQuery, Part000.parseAfterQuery.
    destruct (negb (startsWithSlash (snd q))); [|now apply parseHier_part000].
    destruct (URL.differs (URL.Scheme (fst q)) "").
    - cbn [mapResult]. f_equal. symmetry. apply clearAuthority_id.
      + now destruct (fst q).
      + now destruct (fst q).
    - destruct v; [reflexivity|].
      destruct (negb _); [reflexivity | now apply parseHier_part000]. }
  split; [apply P|].
  unfold Parse, Part000.Parse. fold (parse000 (helpers := helpers)).
  rewrite (P (strings.before (strings.cut rawURL "#")) false).
  destruct (parse000 _ false) as [u|e]; cbn [mapResult]; [|reflexivity].
  destruct (strings.after (strings.cut rawURL "#") =? "")%string; [reflexivity|].
  rewrite <- setFragment_clearAuthority.
  now destruct (setFragment u _).
Qed.

End AuthorityAndPath.

Lemma parse_authority_then_path_witness :
  parse (helpers := Rfc3986.helpers) (("//" ++ "user@example.com:80") ++ "/a/b") false
  = setPath (helpers := Rfc3986.helpers)
      (URL.setRawQuery (URL.setScheme URL.empty "") "") "/a/b" /\
  parse (helpers := Rfc3986.helpers) (("//" ++ "[::1") ++ "") false
  = Err MISSING_RBRACKET_IN_HOST.
Proof.
  split.
  - exact (parse_authority_then_path (helpers := Rfc3986.helpers)
             "user@example.com:80" "/a/b" eq_refl eq_refl eq_refl
             (or_intror eq_refl) eq_refl).
  - exact (parse_authority_then_path (helpers := Rfc3986.helpers)
             "[::1" "" eq_refl eq_refl eq_refl (or_introl eq_refl) eq_refl).
Defined.

Lemma parse_path_only_witness :
  parse (helpers := Rfc3986.helpers) "///a//b?x" false
  = setPath (helpers := Rfc3986.helpers)
      (URL.setRawQuery (URL.setScheme URL.empty "") "x") "///a//b" /\
  parse (helpers := Rfc3986.helpers) "a/b:c" false
  = setPath (helpers := Rfc3986.helpers)
      (URL.setRawQuery (URL.setScheme URL.empty "") "") "a/b:c".
Proof.
  split.
  - exact (parse_path_only (helpers := Rfc3986.helpers) "///a//b?x"
             eq_refl ltac:(discriminate) (or_introl eq_refl) (or_intror eq_refl)).
  - exact (parse_path_only (helpers := Rfc3986.helpers) "a/b:c"
             eq_refl ltac:(discriminate) (or_intror eq_refl) (or_introl eq_refl)).
Defined.

(** ** [parseHost] without zone, and literal characters of a host *)

Section HostLiterals.

Context {helpers : Helpers}.

(** X23: a bracketed host without zone.  Written as [pre ++ "]" ++ port]
    with an opening bracket first, no closing bracket in [port] (the split
    at the LAST one), a [port] that [validOptionalPort] accepts and no
    "%25" in [pre], it is decoded whole in Host context, brackets and port
    included. *)
Theorem parseHost_bracket_without_zone (pre port : string) :
  strings.hasPrefix (pre ++ "]" ++ port) "[" = true ->
  strings.contains port "]" = false ->
  validOptionalPort port = true ->
  strings.contains pre "%25" = false ->
  parseHost (pre ++ "]" ++ port) = unescape (pre ++ "]" ++ port) encodeHost.
Proof.
  intros B N V Z. unfold parseHost. rewrite B.
  change ("]" ++ port) with (String "]" port).
  rewrite (lastIndexOf_last "]" pre port N).
  pose proof (len_nonneg pre) as L.
  destruct (Js.len pre <? 0) eqn:E0; [apply Z.ltb_lt in E0; lia|].
  change (String "]" port) with ("]" ++ port).
  replace (Js.len pre + 1) with (Js.len pre + Js.len "]") by reflexivity.
  rewrite sliceFrom_skip, V, slice_prefix. cbn [negb].
  unfold Js.indexOf. apply contains_false in Z. now rewrite Z.
Qed.

(** X24: literal characters in Host and Zone context.  After a text that
    decodes without error, an ASCII character other than the percent and
    plus signs that [shouldEscape] flags in the mode is refused with the
    invalid-host-character error naming it; a plus sign is never put to
    [shouldEscape], and a character from 0x80 on never refused. *)
Theorem unescape_host_literal (mode : encoding) (pre post : string) (c : ascii) :
  mode = encodeHost \/ mode = encodeZone ->
  isError (unescape pre mode) = false ->
  (Ascii.eqb c "%" = false -> Ascii.eqb c "+" = false ->
   (charCode c < 128)%N -> shouldEscape (charCode c) mode = true ->
   unescape (pre ++ String c post) mode = Err (InvalidHostError (String c ""))) /\
  (Ascii.eqb c "+" = true \/ (128 <= charCode c)%N ->
   isError (unescape (pre ++ String c "") mode) = false).
Proof.
  intros M C. apply unescape_clean in C as [n [hp C]].
  assert (O : encoding_eqb mode encodeHost || encoding_eqb mode encodeZone = true)
    by (destruct M; subst mode; reflexivity).
  split.
  - intros P Q A S. apply unescape_scan_err.
    rewrite (unescapeScan_app _ _ _ _ _ _ (String c post) C).
    cbn [unescapeScan]. rewrite P, Q, O, S.
    apply N.ltb_lt in A. now rewrite A.
  - intros H.
    assert (S : exists q, unescapeScan mode (pre ++ String c "") 0 false = Ok q).
    { rewrite (unescapeScan_app _ _ _ _ _ _ (String c "") C).
      cbn [unescapeScan].
      destruct H as [H|H].
      - apply Ascii.eqb_eq in H. subst c. cbn. eauto.
      - assert (P : Ascii.eqb c "%" = false).
        { apply Ascii.eqb_neq. intros ->. cbn in H. lia. }
        rewrite P. destruct (Ascii.eqb c "+"); [eauto|].
        apply N.ltb_ge in H. rewrite H, andb_false_r. cbn. eauto. }
    destruct S as [[n' hp'] S]. exact (unescape_scan_ok _ _ _ _ S).
Qed.

End HostLiterals.

Lemma parseHost_bracket_without_zone_witness :
  parseHost (helpers := Rfc3986.helpers) ("[::1" ++ "]" ++ ":80") = Ok "[::1]:80".
Proof.
  exact (parseHost_bracket_without_zone (helpers := Rfc3986.helpers)
           "[::1" ":80" eq_refl eq_refl eq_refl eq_refl).
Defined.

Lemma unescape_host_literal_witness :
  unescape (helpers := Rfc3986.helpers) ("a" ++ String " " "b") encodeHost
  = Err (InvalidHostError " ") /\
  isError (unescape (helpers := Rfc3986.helpers) ("a" ++ String "+" "") encodeHost) = false.
Proof.
  pose proof (unescape_host_literal (helpers := Rfc3986.helpers) encodeHost "a" "b" " "
                (or_introl eq_refl) eq_refl) as [A _].
  pose proof (unescape_host_literal (helpers := Rfc3986.helpers) encodeHost "a" "" "+"
                (or_introl eq_refl) eq_refl) as [_ B].
  split.
  - apply A; [reflexivity | reflexivity | reflexivity | reflexivity].
  - apply B. now left.
Defined.
